(** * HTTP stream element ([components/audio_stream/http_stream.c])

    A shallow embedding of the HTTP stream element: the codec sniffer
    ([get_audio_type], [_http_event_handle]), the hook dispatcher
    ([dispatch_hook]) and the lifecycle and I/O callbacks ([_http_open],
    [_http_read], [_http_write], [_http_close]).

    - C [int] values are integers of [Z].  The only arithmetic the element
      does is [info.byte_pos += rlen] in [_http_read]: [byte_pos] is a signed
      field whose type is declared in [audio_element.h], so its width in
      bits is a parameter, [bits], of [_http_read], and the sum wraps around
      at that width ([to_signed]).
    - Pointers are [option]s ([None] is [NULL]); a buffer is the bytes it
      points to.
    - The HTTP client library and the pipeline framework are not part of
      this file: what they answer during one call of the element is a field
      of the record [env], and every call the element makes to them is
      appended, with its arguments, to the trace [w_calls].  The events the
      client delivers while a call runs go through [_http_event_handle].
    - The hook is the function from the message it gets to the [int] it
      returns.
    - The [while] loop of [_http_close] takes fuel; two tests of its
      condition always suffice ([close_loop_total]). *)

From Stdlib Require Import ZArith String Ascii List Bool Lia.
From Stdlib Require Import DecimalString.
Import ListNotations.
Local Open Scope string_scope.
Local Open Scope list_scope.
Local Open Scope Z_scope.

(** ** C strings *)

Module CStr.

(** [tolower] of the C locale, on the code of a character. *)
Definition tolower (c : ascii) : Z :=
  let n := Z.of_N (N_of_ascii c) in
  if (65 <=? n) && (n <=? 90) then n + 32 else n.

(** [strcasecmp]: the difference of the first pair of characters that
    differ after [tolower]; [0] when both strings end (at their end or at a
    NUL character) without one. *)
Fixpoint strcasecmp (s1 s2 : string) : Z :=
  match s1, s2 with
  | String a r1, String b r2 =>
      let c1 := tolower a in
      let c2 := tolower b in
      if c1 =? c2 then (if c1 =? 0 then 0 else strcasecmp r1 r2) else c1 - c2
  | String a _, EmptyString => tolower a
  | EmptyString, String b _ => - tolower b
  | EmptyString, EmptyString => 0
  end.

(** The string [strcasecmp] sees: lower case, cut at the first NUL. *)
Fixpoint folded (s : string) : list Z :=
  match s with
  | EmptyString => []
  | String a r => if tolower a =? 0 then [] else tolower a :: folded r
  end.

End CStr.

(** ** Types of the element *)

(** [audio_codec_t]: the tags this file names. *)
Inductive audio_codec_t : Type :=
  | AUDIO_CODEC_NONE
  | AUDIO_CODEC_WAV
  | AUDIO_CODEC_MP3
  | AUDIO_CODEC_AAC
  | AUDIO_CODEC_OPUS.

Inductive audio_stream_type_t : Type :=
  | AUDIO_STREAM_NONE
  | AUDIO_STREAM_READER
  | AUDIO_STREAM_WRITER.

(** [audio_element_state_t]; the element only compares it with
    [AEL_STATE_PAUSED]. *)
Inductive audio_element_state_t : Type :=
  | AEL_STATE_NONE
  | AEL_STATE_INIT
  | AEL_STATE_RUNNING
  | AEL_STATE_PAUSED
  | AEL_STATE_STOPPED
  | AEL_STATE_FINISHED
  | AEL_STATE_ERROR.

Definition ael_state_eqb (a b : audio_element_state_t) : bool :=
  match a, b with
  | AEL_STATE_NONE, AEL_STATE_NONE
  | AEL_STATE_INIT, AEL_STATE_INIT
  | AEL_STATE_RUNNING, AEL_STATE_RUNNING
  | AEL_STATE_PAUSED, AEL_STATE_PAUSED
  | AEL_STATE_STOPPED, AEL_STATE_STOPPED
  | AEL_STATE_FINISHED, AEL_STATE_FINISHED
  | AEL_STATE_ERROR, AEL_STATE_ERROR => true
  | _, _ => false
  end.

Definition stream_type_eqb (a b : audio_stream_type_t) : bool :=
  match a, b with
  | AUDIO_STREAM_NONE, AUDIO_STREAM_NONE
  | AUDIO_STREAM_READER, AUDIO_STREAM_READER
  | AUDIO_STREAM_WRITER, AUDIO_STREAM_WRITER => true
  | _, _ => false
  end.

(** [esp_err_t] and the three codes the element returns. *)
Definition esp_err_t : Type := Z.
Definition ESP_OK : esp_err_t := 0.
Definition ESP_FAIL : esp_err_t := -1.
Definition ESP_ERR_NO_MEM : esp_err_t := 257.

(** [esp_http_client_handle_t]: a pointer; [None] is [NULL]. *)
Definition esp_http_client_handle_t : Type := option nat.

(** [audio_element_info_t], the fields the element reads or writes. *)
Record audio_element_info_t : Type := mk_info {
  byte_pos : Z;
  total_bytes : Z;
  codec_fmt : audio_codec_t
}.

Definition set_byte_pos (v : Z) (i : audio_element_info_t) :=
  mk_info v (total_bytes i) (codec_fmt i).
Definition set_total_bytes (v : Z) (i : audio_element_info_t) :=
  mk_info (byte_pos i) v (codec_fmt i).
Definition set_codec_fmt (v : audio_codec_t) (i : audio_element_info_t) :=
  mk_info (byte_pos i) (total_bytes i) v.

(** [esp_http_client_event_id_t] and the event passed to the handler. *)
Inductive esp_http_client_event_id_t : Type :=
  | HTTP_EVENT_ERROR
  | HTTP_EVENT_ON_CONNECTED
  | HTTP_EVENT_HEADER_SENT
  | HTTP_EVENT_ON_HEADER
  | HTTP_EVENT_ON_DATA
  | HTTP_EVENT_ON_FINISH
  | HTTP_EVENT_DISCONNECTED.

Record esp_http_client_event_t : Type := mk_evt {
  event_id : esp_http_client_event_id_t;
  header_key : string;
  header_value : string
}.

(** ** Codec sniffer *)

(** [get_audio_type]: each test is [if (strcasecmp (...))], true when the
    strings DIFFER. *)
Definition get_audio_type (content_type : string) : audio_codec_t :=
  if negb (CStr.strcasecmp content_type "audio/mp3" =? 0) then AUDIO_CODEC_MP3
  else if negb (CStr.strcasecmp content_type "audio/mpeg" =? 0) then AUDIO_CODEC_MP3
  else if negb (CStr.strcasecmp content_type "audio/aac" =? 0) then AUDIO_CODEC_AAC
  else if negb (CStr.strcasecmp content_type "audio/wav" =? 0) then AUDIO_CODEC_WAV
  else if negb (CStr.strcasecmp content_type "audio/opus" =? 0) then AUDIO_CODEC_OPUS
  else AUDIO_CODEC_NONE.

Definition is_on_header (e : esp_http_client_event_id_t) : bool :=
  match e with HTTP_EVENT_ON_HEADER => true | _ => false end.

(** Does the handler look at this header?  (The test of its second [if].) *)
Definition sniffed_key (k : string) : bool :=
  (CStr.strcasecmp k "Content-Disposition" =? 0)
  || (CStr.strcasecmp k "Content-Type" =? 0).

(** [_http_event_handle]: [evt->user_data] is the [info] it updates; the
    result is the status with the updated [info]. *)
Definition _http_event_handle (evt : esp_http_client_event_t)
    (info : audio_element_info_t) : esp_err_t * audio_element_info_t :=
  if negb (is_on_header (event_id evt)) then (ESP_OK, info)
  else if sniffed_key (header_key evt)
       then (ESP_OK, set_codec_fmt (get_audio_type (header_value evt)) info)
       else (ESP_OK, info).

(** The handler run over the events one client call delivers, in order. *)
Definition deliver (evts : list esp_http_client_event_t)
    (info : audio_element_info_t) : audio_element_info_t :=
  fold_left (fun i e => snd (_http_event_handle e i)) evts info.

(** ** The element, its collaborators and the trace *)

(** [http_stream_event_id_t]: the extension points of the hook. *)
Inductive http_stream_event_id_t : Type :=
  | HTTP_STREAM_PRE_REQUEST
  | HTTP_STREAM_ON_REQUEST
  | HTTP_STREAM_ON_RESPONSE
  | HTTP_STREAM_POST_REQUEST
  | HTTP_STREAM_FINISH_REQUEST.

(** [http_stream_event_msg_t].  [user_data] is an opaque pointer; a buffer
    is the bytes it points to. *)
Record http_stream_event_msg_t : Type := mk_msg {
  msg_event_id : http_stream_event_id_t;
  msg_http_client : esp_http_client_handle_t;
  msg_user_data : Z;
  msg_buffer : option string;
  msg_buffer_len : Z
}.

(** [http_stream_event_handle_t]: the hook, by the [int] it returns for a
    message. *)
Definition http_stream_event_handle_t : Type :=
  option (http_stream_event_msg_t -> Z).

(** [http_stream_t]. *)
Record http_stream_t : Type := mk_http {
  type : audio_stream_type_t;
  uri : option string;
  is_open : bool;
  client : esp_http_client_handle_t;
  hook : http_stream_event_handle_t;
  stream_type : audio_stream_type_t;
  user_data : Z
}.

(** Calls the element makes to the HTTP client, to the hook and to the
    pipeline framework, with their arguments. *)
Inductive call : Type :=
  | CInit (url : string) (timeout_ms : Z)
  | CSetHeader (c : esp_http_client_handle_t) (key value : string)
  | CGetPostField (c : esp_http_client_handle_t)
  | COpen (c : esp_http_client_handle_t) (write_len : Z)
  | CWrite (c : esp_http_client_handle_t) (buffer : option string) (len : Z)
  | CRead (c : esp_http_client_handle_t) (len : Z)
  | CFetchHeaders (c : esp_http_client_handle_t)
  | CGetStatusCode (c : esp_http_client_handle_t)
  | CClose (c : esp_http_client_handle_t)
  | CCleanup (c : esp_http_client_handle_t)
  | Hook (msg : http_stream_event_msg_t)
  | SetInfo (info : audio_element_info_t)
  | ReportCodecFmt.

(** Log lines at error ([ESP_LOGE]) and warning ([ESP_LOGW]) level, by their
    format string; debug and info lines are not recorded. *)
Inductive log_level : Type := LOGE | LOGW.

(** What the collaborators answer during one call of the element. *)
Record env : Type := mk_env {
  env_init : esp_http_client_handle_t;
  env_post_field : option string * Z;
  env_open : Z -> esp_err_t;
  env_open_events : list esp_http_client_event_t;
  env_write : option string -> Z -> Z;
  env_write_events : list esp_http_client_event_t;
  env_fetch_headers : Z;
  env_fetch_events : list esp_http_client_event_t;
  env_status_code : Z;
  env_read : Z -> Z
}.

(** The element [self]: its [http_stream_t] data, what the framework keeps
    for it (URI, info, state), and what it has done so far. *)
Record world : Type := mk_world {
  w_http : http_stream_t;
  w_uri : option string;
  w_info : audio_element_info_t;
  w_state : audio_element_state_t;
  w_calls : list call;
  w_log : list (log_level * string)
}.

Definition emit (c : call) (w : world) : world :=
  mk_world (w_http w) (w_uri w) (w_info w) (w_state w) (w_calls w ++ [c]) (w_log w).

Definition log (l : log_level) (m : string) (w : world) : world :=
  mk_world (w_http w) (w_uri w) (w_info w) (w_state w) (w_calls w) (w_log w ++ [(l, m)]).

Definition set_http (h : http_stream_t) (w : world) : world :=
  mk_world h (w_uri w) (w_info w) (w_state w) (w_calls w) (w_log w).

Definition set_is_open (b : bool) (w : world) : world :=
  let h := w_http w in
  set_http (mk_http (type h) (uri h) b (client h) (hook h) (stream_type h) (user_data h)) w.

Definition set_client (c : esp_http_client_handle_t) (w : world) : world :=
  let h := w_http w in
  set_http (mk_http (type h) (uri h) (is_open h) c (hook h) (stream_type h) (user_data h)) w.

(** [audio_element_setinfo (self, &info)]. *)
Definition audio_element_setinfo (info : audio_element_info_t) (w : world) : world :=
  let w := emit (SetInfo info) w in
  mk_world (w_http w) (w_uri w) info (w_state w) (w_calls w) (w_log w).

Definition audio_element_report_codec_fmt (w : world) : world :=
  emit ReportCodecFmt w.

(** [(int) x] for a wider [x]. *)
Definition to_int (x : Z) : Z := (x + 2147483648) mod 4294967296 - 2147483648.

(** A signed field of [bits] bits: the values it holds, and the value it
    holds after [x] is stored in it (two's complement wrap-around). *)
Definition in_range (bits x : Z) : Prop :=
  - 2 ^ (bits - 1) <= x < 2 ^ (bits - 1).

Definition to_signed (bits x : Z) : Z :=
  (x + 2 ^ (bits - 1)) mod 2 ^ bits - 2 ^ (bits - 1).

(** [snprintf (rang_header, 32, "bytes=%d-", (int) info.byte_pos)]; the
    longest result has 18 characters. *)
Definition rang_header (pos : Z) : string :=
  ("bytes=" ++ NilZero.string_of_int (Z.to_int (to_int pos)) ++ "-")%string.

(** ** Hook dispatcher *)

Definition dispatch_hook (ty : http_stream_event_id_t)
    (buffer : option string) (buffer_len : Z) (w : world) : Z * world :=
  let http_stream := w_http w in
  let msg := mk_msg ty (client http_stream) (user_data http_stream) buffer buffer_len in
  match hook http_stream with
  | Some h => (h msg, emit (Hook msg) w)
  | None => (ESP_OK, w)
  end.

Definition is_some {A} (o : option A) : bool :=
  match o with Some _ => true | None => false end.

(** ** [_http_open] *)

Definition _http_open (E : env) (w : world) : esp_err_t * world :=
  let info := w_info w in
  match w_uri w with
  | None => (ESP_FAIL, log LOGE "Error, need uri to open" w)
  | Some url =>
  if is_open (w_http w) then (ESP_FAIL, log LOGE "already opened" w) else
  let w := set_client (env_init E) (emit (CInit url (30 * 1000)) w) in
  let c := client (w_http w) in
  if negb (is_some c) then (ESP_ERR_NO_MEM, log LOGE "Memory exhausted" w) else
  let w := if negb (byte_pos info =? 0)
           then emit (CSetHeader c "Range" (rang_header (byte_pos info))) w
           else w in
  let '(pre, w) := dispatch_hook HTTP_STREAM_PRE_REQUEST None 0 w in
  if negb (pre =? ESP_OK)
  then (ESP_FAIL, log LOGE "Failed to process user callback" w) else
  if stream_type_eqb (stream_type (w_http w)) AUDIO_STREAM_WRITER then
    let err := env_open E (-1) in
    let w := emit (COpen c (-1)) w in
    if err =? ESP_OK then (err, set_is_open true w) else (err, w)
  else
  let '(buffer, post_len) := env_post_field E in
  let w := emit (CGetPostField c) w in
  let w := emit (COpen c post_len) w in
  let info := deliver (env_open_events E) info in
  if negb (env_open E post_len =? ESP_OK)
  then (ESP_FAIL, log LOGE "Failed to open http stream" w) else
  let '(wrlen, w) := dispatch_hook HTTP_STREAM_ON_REQUEST buffer post_len w in
  if wrlen <? 0 then (ESP_FAIL, log LOGE "Failed to process user callback" w) else
  let body := negb (post_len =? 0) && is_some buffer && (wrlen =? 0) in
  let w := if body then emit (CWrite c buffer post_len) w else w in
  let info := if body then deliver (env_write_events E) info else info in
  if body && (env_write E buffer post_len <=? 0)
  then (ESP_FAIL, log LOGE "Failed to write data to http stream" w) else
  let '(post, w) := dispatch_hook HTTP_STREAM_POST_REQUEST None 0 w in
  if post <? 0 then (ESP_FAIL, emit (CClose c) w) else
  let w := emit (CFetchHeaders c) w in
  let info := set_total_bytes (env_fetch_headers E) (deliver (env_fetch_events E) info) in
  let w := emit (CGetStatusCode c) w in
  let w := if negb (env_status_code E =? 200) then log LOGE "Invalid HTTP stream" w else w in
  let w := set_is_open true w in
  let w := audio_element_setinfo info w in
  let w := audio_element_report_codec_fmt w in
  (ESP_OK, w)
  end.

(** ** [_http_read] and [_http_write] *)

(** [_http_read]; [bits] is the width of [info.byte_pos]. *)
Definition _http_read (bits : Z) (E : env) (buffer : option string) (len : Z)
    (w : world) : Z * world :=
  let info := w_info w in
  let c := client (w_http w) in
  let '(wrlen, w) := dispatch_hook HTTP_STREAM_ON_RESPONSE buffer len w in
  let rlen := wrlen in
  let '(rlen, w) := if rlen =? 0 then (env_read E len, emit (CRead c len) w)
                    else (rlen, w) in
  if rlen <=? 0 then (rlen, log LOGW "No more data,errno:%d" w)
  else
    let info := set_byte_pos (to_signed bits (byte_pos info + rlen)) info in
    (rlen, audio_element_setinfo info w).

Definition _http_write (E : env) (buffer : option string) (len : Z) (w : world)
    : Z * world :=
  let c := client (w_http w) in
  let '(wrlen, w) := dispatch_hook HTTP_STREAM_ON_REQUEST buffer len w in
  if wrlen <? 0 then (ESP_FAIL, log LOGE "Failed to process user callback" w) else
  if wrlen >? 0 then (wrlen, w) else
  let wrlen := env_write E buffer len in
  let w := emit (CWrite c buffer len) w in
  if wrlen <=? 0
  then (wrlen, log LOGE "Failed to write data to http stream, wrlen=%d, errno=%d" w)
  else (wrlen, w).

(** ** [_http_close] *)

(** One pass through the body of [while (http->is_open)]; the flag says
    whether it left by [break]. *)
Definition close_body (w : world) : bool * world :=
  let w := set_is_open false w in
  let c := client (w_http w) in
  if negb (stream_type_eqb (stream_type (w_http w)) AUDIO_STREAM_WRITER)
  then (true, w) else
  let '(post, w) := dispatch_hook HTTP_STREAM_POST_REQUEST None 0 w in
  if post <? 0 then (true, w) else
  let w := emit (CFetchHeaders c) w in
  let '(fin, w) := dispatch_hook HTTP_STREAM_FINISH_REQUEST None 0 w in
  if fin <? 0 then (true, w) else (false, w).

(** The [while] loop, for at most [fuel] tests of its condition. *)
Fixpoint close_loop (fuel : nat) (w : world) : option world :=
  match fuel with
  | O => None
  | S n =>
      if is_open (w_http w) then
        let '(brk, w') := close_body w in
        if brk then Some w' else close_loop n w'
      else Some w
  end.

(** [_http_close].  The events of its [esp_http_client_fetch_headers] go to
    the handler with the [info] of the [_http_open] that made the client,
    a local of a call that has returned: they are not delivered here. *)
Definition _http_close (fuel : nat) (w : world) : option (esp_err_t * world) :=
  match close_loop fuel w with
  | None => None
  | Some w =>
      let c := client (w_http w) in
      let w := emit (CClose c) w in
      let w := emit (CCleanup c) w in
      let w := if negb (ael_state_eqb AEL_STATE_PAUSED (w_state w))
               then
                 let info := w_info w in
                 let info := set_byte_pos 0 info in
                 audio_element_setinfo info w
               else w in
      Some (ESP_OK, w)
  end.

(** ** [http_stream_init] *)

(** [http_stream_cfg_t], the fields the element reads. *)
Record http_stream_cfg_t : Type := mk_cfg {
  cfg_type : audio_stream_type_t;
  cfg_event_handle : http_stream_event_handle_t;
  cfg_user_data : Z
}.

(** The [http_stream_t] that [http_stream_init] attaches to the element when
    its two allocations succeed: [audio_calloc] zeroes [uri], [is_open] and
    [client]. *)
Definition http_stream_init (config : http_stream_cfg_t) : http_stream_t :=
  mk_http (cfg_type config) None false None (cfg_event_handle config)
    (cfg_type config) (cfg_user_data config).

(** ** Vocabulary of the statements *)

(** [_http_event_handle] with a classifier [f] in the place of
    [get_audio_type]. *)
Definition handle_with (f : string -> audio_codec_t)
    (evt : esp_http_client_event_t) (info : audio_element_info_t)
    : audio_element_info_t :=
  if negb (is_on_header (event_id evt)) then info
  else if sniffed_key (header_key evt)
       then set_codec_fmt (f (header_value evt)) info
       else info.

(** The calls made between [w] and a later [w']. *)
Definition made (w w' : world) : list call :=
  skipn (length (w_calls w)) (w_calls w').

(** What the hook of [h] returns at an extension point; [ESP_OK] when there
    is no hook. *)
Definition hook_result (h : http_stream_t) (ty : http_stream_event_id_t)
    (buffer : option string) (buffer_len : Z) : Z :=
  match hook h with
  | Some f => f (mk_msg ty (client h) (user_data h) buffer buffer_len)
  | None => ESP_OK
  end.

(** The calls one [dispatch_hook] adds. *)
Definition hook_calls (h : http_stream_t) (ty : http_stream_event_id_t)
    (buffer : option string) (buffer_len : Z) : list call :=
  match hook h with
  | Some _ => [Hook (mk_msg ty (client h) (user_data h) buffer buffer_len)]
  | None => []
  end.

(** [w] after the calls [l]. *)
Definition add_calls (l : list call) (w : world) : world :=
  mk_world (w_http w) (w_uri w) (w_info w) (w_state w) (w_calls w ++ l) (w_log w).

(** The element after [http->client = esp_http_client_init (...)]. *)
Definition with_client (c : esp_http_client_handle_t) (h : http_stream_t) : http_stream_t :=
  mk_http (type h) (uri h) (is_open h) c (hook h) (stream_type h) (user_data h).

(** [E] with another status code. *)
Definition with_status_code (s : Z) (E : env) : env :=
  mk_env (env_init E) (env_post_field E) (env_open E) (env_open_events E)
    (env_write E) (env_write_events E) (env_fetch_headers E)
    (env_fetch_events E) s (env_read E).

(** What [_http_close] does after the loop. *)
Definition close_tail (w : world) : world :=
  let c := client (w_http w) in
  let w := emit (CCleanup c) (emit (CClose c) w) in
  if negb (ael_state_eqb AEL_STATE_PAUSED (w_state w))
  then audio_element_setinfo (set_byte_pos 0 (w_info w)) w
  else w.

(** Sample elements and collaborators. *)
Module Sample.

Definition url : string := "http://host/a.mp3".

Definition http (t : audio_stream_type_t) (h : http_stream_event_handle_t)
    : http_stream_t :=
  http_stream_init (mk_cfg t h 7).

Definition fresh (t : audio_stream_type_t) (h : http_stream_event_handle_t)
    : world :=
  mk_world (http t h) (Some url) (mk_info 0 0 AUDIO_CODEC_NONE) AEL_STATE_INIT [] [].

(** A server that accepts everything and answers [status] with an MP3. *)
Definition server (status : Z) : env :=
  mk_env (Some 1%nat) (None, 0) (fun _ => ESP_OK) [] (fun _ len => len) []
    1000 [mk_evt HTTP_EVENT_ON_HEADER "Content-Type" "audio/mpeg"] status
    (fun len => len).

(** A hook that answers [v] at the extension point [point] and [0]
    elsewhere. *)
Definition hook_at (point : http_stream_event_id_t) (v : Z)
    : http_stream_event_handle_t :=
  Some (fun m =>
    match msg_event_id m, point with
    | HTTP_STREAM_PRE_REQUEST, HTTP_STREAM_PRE_REQUEST
    | HTTP_STREAM_ON_REQUEST, HTTP_STREAM_ON_REQUEST
    | HTTP_STREAM_ON_RESPONSE, HTTP_STREAM_ON_RESPONSE
    | HTTP_STREAM_POST_REQUEST, HTTP_STREAM_POST_REQUEST
    | HTTP_STREAM_FINISH_REQUEST, HTTP_STREAM_FINISH_REQUEST => v
    | _, _ => 0
    end).

Definition pre_msg : http_stream_event_msg_t :=
  mk_msg HTTP_STREAM_PRE_REQUEST (Some 1%nat) 7 None 0.
Definition on_request_msg : http_stream_event_msg_t :=
  mk_msg HTTP_STREAM_ON_REQUEST (Some 1%nat) 7 None 0.

End Sample.

(** ** [_http_process], [_http_destroy] and the whole of [http_stream_init] *)

(** What the pipeline answers to [_http_process]: [audio_element_input]
    fills the buffer and returns a count, [audio_element_output] returns a
    count. *)
Record pipeline : Type := mk_pipeline {
  pl_input : option string -> Z -> Z * option string;
  pl_output : option string -> Z -> Z
}.

Inductive pipe_call : Type :=
  | PInput (buffer : option string) (len : Z)
  | POutput (buffer : option string) (len : Z).

(** [_http_process]: the result with the calls made. *)
Definition _http_process (P : pipeline) (in_buffer : option string) (in_len : Z)
    : Z * list pipe_call :=
  let '(r_size, filled) := pl_input P in_buffer in_len in
  let calls := [PInput in_buffer in_len] in
  if r_size >? 0
  then (pl_output P filled r_size, calls ++ [POutput filled r_size])
  else (r_size, calls).

(** The callbacks an element can be given: those of this file, or another
    function pointer. *)
Inductive callback : Type :=
  | cb_http_open
  | cb_http_close
  | cb_http_process
  | cb_http_destroy
  | cb_http_read
  | cb_http_write
  | cb_other (id : nat).

(** [audio_element_cfg_t], the fields [http_stream_init] sets; a callback
    that is [None] is [NULL]. *)
Record audio_element_cfg_t : Type := mk_el_cfg {
  el_open : option callback;
  el_close : option callback;
  el_process : option callback;
  el_destroy : option callback;
  el_read : option callback;
  el_write : option callback;
  el_task_stack : Z;
  el_tag : string
}.

Definition HTTP_STREAM_TASK_STACK : Z := 6 * 1024.

(** Allocations and releases of the element's own memory. *)
Inductive mem_call : Type :=
  | MCalloc
  | MElementInit (cfg : audio_element_cfg_t)
  | MSetData (http : http_stream_t)
  | MFree.

(** [http_stream_init], with both allocations: [default] is what
    [DEFAULT_AUDIO_ELEMENT_CONFIG ()] gives, [http_ok] and [el_ok] say
    whether [audio_calloc] and [audio_element_init] return a pointer.  The
    result is the element, by its configuration and its data, or [None] for
    [NULL]. *)
Definition http_stream_init_run (default : audio_element_cfg_t)
    (http_ok el_ok : bool) (config : http_stream_cfg_t)
    : option (audio_element_cfg_t * http_stream_t) * list mem_call :=
  if negb http_ok then (None, [MCalloc]) else
  let cfg :=
    mk_el_cfg (Some cb_http_open) (Some cb_http_close) (Some cb_http_process)
      (Some cb_http_destroy) (el_read default) (el_write default)
      HTTP_STREAM_TASK_STACK "http" in
  let http :=
    mk_http (cfg_type config) None false None (cfg_event_handle config)
      (cfg_type config) (cfg_user_data config) in
  let cfg :=
    if stream_type_eqb (cfg_type config) AUDIO_STREAM_READER
    then mk_el_cfg (el_open cfg) (el_close cfg) (el_process cfg) (el_destroy cfg)
           (Some cb_http_read) (el_write cfg) (el_task_stack cfg) (el_tag cfg)
    else if stream_type_eqb (cfg_type config) AUDIO_STREAM_WRITER
    then mk_el_cfg (el_open cfg) (el_close cfg) (el_process cfg) (el_destroy cfg)
           (el_read cfg) (Some cb_http_write) (el_task_stack cfg) (el_tag cfg)
    else cfg in
  if negb el_ok then (None, [MCalloc; MElementInit cfg; MFree])
  else (Some (cfg, http), [MCalloc; MElementInit cfg; MSetData http]).

(** [_http_destroy]. *)
Definition _http_destroy : esp_err_t * list mem_call := (ESP_OK, [MFree]).

(** ** More vocabulary *)

(** An event the handler acts on: a header named Content-Disposition or
    Content-Type. *)
Definition is_sniffed (e : esp_http_client_event_t) : bool :=
  is_on_header (event_id e) && sniffed_key (header_key e).

Definition is_cwrite (c : call) : bool :=
  match c with CWrite _ _ _ => true | _ => false end.

Definition is_set_header (c : call) : bool :=
  match c with CSetHeader _ _ _ => true | _ => false end.

Definition is_hook (c : call) : bool :=
  match c with Hook _ => true | _ => false end.

Definition is_release (c : call) : bool :=
  match c with CClose _ | CCleanup _ => true | _ => false end.

Definition is_free (c : mem_call) : bool :=
  match c with MFree => true | _ => false end.

(** The element with another hook. *)
Definition set_hook (h : http_stream_event_handle_t) (w : world) : world :=
  let x := w_http w in
  set_http (mk_http (type x) (uri x) (is_open x) (client x) h (stream_type x)
              (user_data x)) w.

(** A hook that defers at every extension point. *)
Definition deferring_hook : http_stream_event_handle_t := Some (fun _ => 0).

(** Successive calls of [_http_read], each with its own answers, buffer and
    length; the values returned, in order, and the element at the end. *)
Fixpoint read_all (bits : Z) (steps : list (env * option string * Z))
    (w : world) : list Z * world :=
  match steps with
  | [] => ([], w)
  | (E, buffer, len) :: rest =>
      let '(k, w1) := _http_read bits E buffer len w in
      let '(ks, w2) := read_all bits rest w1 in
      (k :: ks, w2)
  end.

(** The bytes a list of returned values stands for: the positive ones. *)
Definition bytes_read (ks : list Z) : Z :=
  fold_right (fun k acc => (if 0 <? k then k else 0) + acc) 0 ks.

(** [is_open] implies a client. *)
Definition client_present (h : http_stream_t) : Prop :=
  is_open h = true -> client h <> None.

(** * Properties *)

(** ** The codec sniffer *)

Module SnifferFacts.
Import CStr.

Lemma strcasecmp_zero_iff (s t : string) :
  strcasecmp s t = 0 <-> folded s = folded t.
Proof.
  revert t; induction s as [|a r IH]; intros [|b t]; cbn [strcasecmp folded].
  - tauto.
  - destruct (tolower b =? 0) eqn:Hb.
    + apply Z.eqb_eq in Hb. split; [reflexivity | lia].
    + apply Z.eqb_neq in Hb. split; [lia | discriminate].
  - destruct (tolower a =? 0) eqn:Ha.
    + apply Z.eqb_eq in Ha. tauto.
    + apply Z.eqb_neq in Ha. split; [lia | discriminate].
  - destruct (tolower a =? tolower b) eqn:Hab.
    + apply Z.eqb_eq in Hab. rewrite <- Hab.
      destruct (tolower a =? 0); [tauto|].
      rewrite IH. split; [congruence | now injection 1].
    + apply Z.eqb_neq in Hab.
      destruct (tolower a =? 0) eqn:Ha, (tolower b =? 0) eqn:Hb;
        try apply Z.eqb_eq in Ha; try apply Z.eqb_eq in Hb;
        split; try lia; try discriminate; try congruence.
Qed.

(** No string equals both ["audio/mp3"] and ["audio/mpeg"]. *)
Lemma not_both_mp3_mpeg (s : string) :
  strcasecmp s "audio/mp3" = 0 -> strcasecmp s "audio/mpeg" <> 0.
Proof.
  intros H3 Hm. apply strcasecmp_zero_iff in H3, Hm.
  rewrite H3 in Hm. vm_compute in Hm. discriminate.
Qed.

End SnifferFacts.

(** [get_audio_type] answers MP3 whatever the header value: the first test
    succeeds unless the value is ["audio/mp3"], and then the second does. *)
Lemma get_audio_type_constant (content_type : string) :
  get_audio_type content_type = AUDIO_CODEC_MP3.
Proof.
  unfold get_audio_type.
  destruct (CStr.strcasecmp content_type "audio/mp3" =? 0) eqn:H3; [|reflexivity].
  destruct (CStr.strcasecmp content_type "audio/mpeg" =? 0) eqn:Hm; [|reflexivity].
  apply Z.eqb_eq in H3, Hm.
  now destruct (SnifferFacts.not_both_mp3_mpeg content_type).
Qed.

(** The handler on one event: a sniffed header sets the codec, anything else
    leaves [info] as it is. *)
Lemma handle_sniffed (e : esp_http_client_event_t) (info : audio_element_info_t) :
  is_on_header (event_id e) = true -> sniffed_key (header_key e) = true ->
  snd (_http_event_handle e info)
  = set_codec_fmt (get_audio_type (header_value e)) info.
Proof. intros H1 H2. unfold _http_event_handle. now rewrite H1, H2. Qed.

Lemma handle_codec_cases (e : esp_http_client_event_t) (info : audio_element_info_t) :
  codec_fmt (snd (_http_event_handle e info)) = codec_fmt info
  \/ codec_fmt (snd (_http_event_handle e info)) = get_audio_type (header_value e).
Proof.
  unfold _http_event_handle.
  destruct (is_on_header (event_id e)); cbn; [|now left].
  destruct (sniffed_key (header_key e)); cbn; [now right | now left].
Qed.

Lemma handle_frame (e : esp_http_client_event_t) (info : audio_element_info_t) :
  byte_pos (snd (_http_event_handle e info)) = byte_pos info
  /\ total_bytes (snd (_http_event_handle e info)) = total_bytes info.
Proof.
  unfold _http_event_handle.
  destruct (is_on_header (event_id e)); cbn; [|tauto].
  destruct (sniffed_key (header_key e)); cbn; tauto.
Qed.

Lemma deliver_app (l1 l2 : list esp_http_client_event_t) (info : audio_element_info_t) :
  deliver (l1 ++ l2) info = deliver l2 (deliver l1 info).
Proof. unfold deliver. apply fold_left_app. Qed.

Lemma deliver_cons (e : esp_http_client_event_t) (l : list esp_http_client_event_t)
    (info : audio_element_info_t) :
  deliver (e :: l) info = deliver l (snd (_http_event_handle e info)).
Proof. reflexivity. Qed.

Lemma deliver_frame (l : list esp_http_client_event_t) (info : audio_element_info_t) :
  byte_pos (deliver l info) = byte_pos info
  /\ total_bytes (deliver l info) = total_bytes info.
Proof.
  revert info; induction l as [|e l IH]; intros info; [cbn; tauto|].
  rewrite deliver_cons. destruct (IH (snd (_http_event_handle e info))) as [-> ->].
  apply handle_frame.
Qed.

Lemma deliver_byte_pos (l : list esp_http_client_event_t) (info : audio_element_info_t) :
  byte_pos (deliver l info) = byte_pos info.
Proof. apply deliver_frame. Qed.

(** Once the codec is MP3, no later event changes it. *)
Lemma deliver_keeps_mp3 (l : list esp_http_client_event_t) (info : audio_element_info_t) :
  codec_fmt info = AUDIO_CODEC_MP3 -> codec_fmt (deliver l info) = AUDIO_CODEC_MP3.
Proof.
  revert info; induction l as [|e l IH]; intros info H; [exact H|].
  rewrite deliver_cons. apply IH.
  destruct (handle_codec_cases e info) as [-> | ->];
    [exact H | apply get_audio_type_constant].
Qed.

(** The handler in general, for any classifier [f] in the place of
    [get_audio_type]: the LAST sniffed header decides.  That the first one
    does, below, rests on [get_audio_type_constant]. *)
Lemma handle_with_last (f : string -> audio_codec_t)
    (l : list esp_http_client_event_t)
    (e : esp_http_client_event_t) (info : audio_element_info_t) :
  is_on_header (event_id e) = true -> sniffed_key (header_key e) = true ->
  codec_fmt (fold_left (fun i x => handle_with f x i) (l ++ [e]) info)
  = f (header_value e).
Proof.
  intros H1 H2. rewrite fold_left_app. cbn. unfold handle_with.
  now rewrite H1, H2.
Qed.

Lemma handle_with_get_audio_type (e : esp_http_client_event_t)
    (info : audio_element_info_t) :
  handle_with get_audio_type e info = snd (_http_event_handle e info).
Proof.
  unfold handle_with, _http_event_handle.
  destruct (is_on_header (event_id e)); cbn; [|reflexivity].
  now destruct (sniffed_key (header_key e)).
Qed.

(** C1: the classification of a header value.  For the header
    [Content-Type: audio/aac] the sniffer sets the codec to MP3, not AAC;
    a value with none of the markers ([text/html]) gives MP3 too, not NONE,
    and so does [audio/mpeg; charset=utf-8] (MP3, but not by containment). *)
Theorem sniffer_aac_header_gives_mp3 :
  let info := mk_info 0 0 AUDIO_CODEC_NONE in
  codec_fmt (deliver [mk_evt HTTP_EVENT_ON_HEADER "Content-Type" "audio/aac"] info)
    = AUDIO_CODEC_MP3
  /\ codec_fmt (deliver [mk_evt HTTP_EVENT_ON_HEADER "content-type" "text/html"] info)
    = AUDIO_CODEC_MP3
  /\ get_audio_type "audio/wav" = AUDIO_CODEC_MP3
  /\ get_audio_type "AUDIO/OPUS" = AUDIO_CODEC_MP3
  /\ get_audio_type "audio/mpeg; charset=utf-8" = AUDIO_CODEC_MP3.
Proof. vm_compute. repeat split. Qed.

(** C3: within one open, once a response header has given a codec other than
    NONE, the headers after it do not change [codec_fmt]: with [e] such a
    header, whatever comes before and after it, the codec at the end is the
    one [e] gave. *)
Theorem first_classified_header_decides
    (before after : list esp_http_client_event_t)
    (e : esp_http_client_event_t) (info : audio_element_info_t) :
  is_on_header (event_id e) = true ->
  sniffed_key (header_key e) = true ->
  get_audio_type (header_value e) <> AUDIO_CODEC_NONE ->
  codec_fmt (deliver (before ++ [e]) info) = get_audio_type (header_value e)
  /\ codec_fmt (deliver (before ++ e :: after) info)
     = get_audio_type (header_value e)
  /\ forall k, (k <= length after)%nat ->
       codec_fmt (deliver (before ++ e :: firstn k after) info)
       = codec_fmt (deliver (before ++ [e]) info).
Proof.
  intros H1 H2 _.
  assert (Hat : forall l, codec_fmt (deliver (before ++ e :: l) info)
                          = get_audio_type (header_value e)).
  { intros l. rewrite deliver_app, deliver_cons, (handle_sniffed _ _ H1 H2).
    rewrite get_audio_type_constant. apply deliver_keeps_mp3. reflexivity. }
  split; [apply Hat|]. split; [apply Hat|].
  intros k _. now rewrite !Hat.
Qed.

Lemma first_classified_header_decides_witness :
  let e := mk_evt HTTP_EVENT_ON_HEADER "Content-Type" "audio/mpeg" in
  let after := [mk_evt HTTP_EVENT_ON_HEADER "Content-Disposition" "attachment"] in
  let info := mk_info 0 0 AUDIO_CODEC_NONE in
  codec_fmt (deliver ([] ++ e :: after) info) = AUDIO_CODEC_MP3.
Proof.
  intros e after info.
  refine (proj1 (proj2 (first_classified_header_decides [] after e info _ _ _))).
  - reflexivity.
  - reflexivity.
  - vm_compute. discriminate.
Defined.

(** ** Traces and the hook *)

Lemma skipn_own_prefix {A} (l m : list A) : skipn (length l) (l ++ m) = m.
Proof. rewrite skipn_app, skipn_all, Nat.sub_diag. reflexivity. Qed.

Lemma made_refl (w w' : world) : w_calls w' = w_calls w -> made w w' = [].
Proof. unfold made. intros ->. apply skipn_all. Qed.

Lemma made_app (w w' : world) (l : list call) :
  w_calls w' = w_calls w ++ l -> made w w' = l.
Proof. unfold made. intros ->. apply skipn_own_prefix. Qed.

Lemma dispatch_hook_eq ty buffer len (w : world) :
  dispatch_hook ty buffer len w
  = (hook_result (w_http w) ty buffer len,
     add_calls (hook_calls (w_http w) ty buffer len) w).
Proof.
  unfold dispatch_hook, hook_result, hook_calls, add_calls, emit.
  destruct (hook (w_http w)); [reflexivity|].
  rewrite app_nil_r. now destruct w.
Qed.

Lemma hook_calls_no_client_call h ty buffer len (c : call) :
  In c (hook_calls h ty buffer len) -> exists m, c = Hook m.
Proof.
  unfold hook_calls. destruct (hook h); cbn; [|tauto].
  intros [<- | []]. eexists; reflexivity.
Qed.

(** ** [_http_open]: rejection *)

(** C7: [_http_open] on an element that is already open, or that has no URI,
    returns [ESP_FAIL] and changes nothing: the [http_stream_t] (with
    [is_open] and the client handle), the info ([byte_pos], [total_bytes],
    [codec_fmt]), the URI and the state are as before, and no call is made. *)
Theorem open_rejected_mutates_nothing (E : env) (w : world) :
  w_uri w = None \/ is_open (w_http w) = true ->
  fst (_http_open E w) = ESP_FAIL
  /\ w_http (snd (_http_open E w)) = w_http w
  /\ w_info (snd (_http_open E w)) = w_info w
  /\ w_uri (snd (_http_open E w)) = w_uri w
  /\ w_state (snd (_http_open E w)) = w_state w
  /\ made w (snd (_http_open E w)) = [].
Proof.
  intros H. unfold _http_open.
  destruct (w_uri w) as [url|] eqn:Hu.
  - destruct H as [H|H]; [discriminate|]. rewrite H. cbn.
    repeat split; try assumption. now apply made_refl.
  - cbn. repeat split; try assumption. now apply made_refl.
Qed.

Lemma open_rejected_mutates_nothing_witness :
  let w := set_is_open true (Sample.fresh AUDIO_STREAM_READER None) in
  (w_uri w = None \/ is_open (w_http w) = true)
  /\ fst (_http_open (Sample.server 200) w) = ESP_FAIL
  /\ w_http (snd (_http_open (Sample.server 200) w)) = w_http w
  /\ w_info (snd (_http_open (Sample.server 200) w)) = w_info w.
Proof.
  intros w.
  assert (H : w_uri w = None \/ is_open (w_http w) = true)
    by (right; reflexivity).
  split; [exact H|].
  destruct (open_rejected_mutates_nothing (Sample.server 200) w H)
    as (Hr & Hh & Hi & _).
  repeat split; assumption.
Defined.

(** ** Following one run of a callback *)

Ltac world_cbn :=
  cbn [w_http w_uri w_info w_state w_calls w_log add_calls emit log set_client
       set_http set_is_open audio_element_setinfo audio_element_report_codec_fmt
       with_client set_byte_pos set_total_bytes set_codec_fmt
       byte_pos total_bytes codec_fmt
       type uri is_open client hook stream_type user_data fst snd is_some negb]
    in *.

Ltac made_cbn :=
  unfold made; world_cbn; rewrite <- ?app_assoc; rewrite ?skipn_own_prefix;
  cbn [app].

(** [H : p = run]: take the next step of [run], a hook dispatch or a test. *)
Ltac split_run H :=
  match type of H with
  | context [dispatch_hook _ _ _ _] =>
      rewrite dispatch_hook_eq in H; cbv beta iota zeta in H; world_cbn
  | context [env_post_field ?E] =>
      let buffer := fresh "buffer" in
      let post_len := fresh "post_len" in
      destruct (env_post_field E) as [buffer post_len] eqn:?
  | context [if ?b then _ else _] =>
      let Hb := fresh "Hb" in destruct b eqn:Hb; world_cbn
  end.

(** The same for two runs that make the same tests. *)
Ltac split_run2 H1 H2 :=
  match type of H1 with
  | context [dispatch_hook _ _ _ _] =>
      rewrite dispatch_hook_eq in H1, H2; cbv beta iota zeta in H1, H2; world_cbn
  | context [env_post_field ?E] =>
      let buffer := fresh "buffer" in
      let post_len := fresh "post_len" in
      destruct (env_post_field E) as [buffer post_len] eqn:?
  | context [if ?b then _ else _] =>
      let Hb := fresh "Hb" in destruct b eqn:Hb; world_cbn
  end.

(** A call that is in the trace, and one that is not. *)
Ltac find_call :=
  repeat first [ apply in_eq | apply in_cons | (apply in_or_app; right) ].

Ltac in_cases H :=
  repeat match type of H with
    | In _ (_ ++ _) => apply in_app_or in H; destruct H as [H | H]
    | In _ (hook_calls _ _ _ _) =>
        apply hook_calls_no_client_call in H; destruct H as [? H]
    | In _ (_ :: _) => destruct H as [H | H]
    | In _ [] => contradiction H
    end.

Ltac no_such_call H :=
  in_cases H; solve [ discriminate H | contradiction H ].

(** Lists that end with [t]. *)
Lemma ends_with_refl {A} (t : list A) : exists m, t = m ++ t.
Proof. now exists []. Qed.

Lemma ends_with_cons {A} (a : A) (l t : list A) :
  (exists m, l = m ++ t) -> exists m, a :: l = m ++ t.
Proof. intros [m ->]. now exists (a :: m). Qed.

Lemma ends_with_app {A} (h l t : list A) :
  (exists m, l = m ++ t) -> exists m, h ++ l = m ++ t.
Proof. intros [m ->]. exists (h ++ m). apply app_assoc. Qed.

Ltac ends_with :=
  repeat first [ apply ends_with_refl | apply ends_with_cons | apply ends_with_app ].

(** A hook call in the trace, with the hook [f]: the message and the answer. *)
Lemma hook_calls_inv (h : http_stream_t) (f : http_stream_event_msg_t -> Z)
    ty buffer len (m : http_stream_event_msg_t) :
  hook h = Some f ->
  In (Hook m) (hook_calls h ty buffer len) ->
  msg_event_id m = ty /\ msg_http_client m = client h
  /\ hook_result h ty buffer len = f m.
Proof.
  unfold hook_calls, hook_result. intros ->. intros [H | []].
  injection H as <-. repeat split.
Qed.

Ltac hook_cases Hf H :=
  repeat match type of H with
    | In _ (_ ++ _) => apply in_app_or in H; destruct H as [H | H]
    | In (Hook ?m) (hook_calls ?h ?ty ?b ?l) =>
        apply (hook_calls_inv h _ ty b l m Hf) in H;
        let He := fresh "He" in
        let Hc := fresh "Hc" in
        let Hr := fresh "Hr" in
        destruct H as (He & Hc & Hr)
    | In _ (_ :: _) => destruct H as [H | H]
    | In _ [] => contradiction H
    | _ = _ => discriminate H
    end.

(** The tests of a run, as facts about integers. *)
Ltac bool_facts :=
  unfold ESP_OK in *;
  repeat match goal with
    | H : negb _ = true |- _ => apply negb_true_iff in H
    | H : negb _ = false |- _ => apply negb_false_iff in H
    | H : (_ =? _) = true |- _ => apply Z.eqb_eq in H
    | H : (_ =? _) = false |- _ => apply Z.eqb_neq in H
    | H : (_ <? _) = true |- _ => apply Z.ltb_lt in H
    | H : (_ <? _) = false |- _ => apply Z.ltb_ge in H
    | H : (_ <=? _) = true |- _ => apply Z.leb_le in H
    | H : (_ <=? _) = false |- _ => apply Z.leb_gt in H
    end.

(** ** [_http_open]: the hooks *)

(** [_http_open] never calls [esp_http_client_cleanup], on any path. *)
Lemma open_never_cleans_up (E : env) (w : world) (c : esp_http_client_handle_t) :
  ~ In (CCleanup c) (made w (snd (_http_open E w))).
Proof.
  remember (_http_open E w) as p eqn:Hp.
  unfold _http_open in Hp. cbv zeta in Hp.
  destruct (w_uri w) as [url|].
  all: repeat split_run Hp.
  all: subst p; made_cbn; intros Hin.
  all: try (rewrite skipn_all in Hin).
  all: no_such_call Hin.
Qed.

(** C2, as stated, fails.  Scenario C and its PreRequest twin, run on the
    code: a reader whose hook answers -1 at OnRequest (resp. at PreRequest).
    [_http_open] returns [ESP_FAIL] and [is_open] stays false, but the handle
    it got from [esp_http_client_init] stays in [http->client] and the calls
    it made contain neither [esp_http_client_close] nor
    [esp_http_client_cleanup]. *)
Theorem open_hook_abort_keeps_the_client :
  let w := Sample.fresh AUDIO_STREAM_READER
             (Sample.hook_at HTTP_STREAM_ON_REQUEST (-1)) in
  let w2 := Sample.fresh AUDIO_STREAM_READER
              (Sample.hook_at HTTP_STREAM_PRE_REQUEST (-1)) in
  let p := _http_open (Sample.server 200) w in
  let p2 := _http_open (Sample.server 200) w2 in
  (fst p = ESP_FAIL /\ is_open (w_http (snd p)) = false
   /\ client (w_http (snd p)) = Some 1%nat
   /\ w_calls (snd p)
      = [CInit Sample.url 30000; Hook Sample.pre_msg;
         CGetPostField (Some 1%nat); COpen (Some 1%nat) 0;
         Hook Sample.on_request_msg])
  /\ (fst p2 = ESP_FAIL /\ is_open (w_http (snd p2)) = false
      /\ client (w_http (snd p2)) = Some 1%nat
      /\ w_calls (snd p2) = [CInit Sample.url 30000; Hook Sample.pre_msg]).
Proof. vm_compute. repeat split. Qed.

(** C5, as stated, fails: a PreRequest hook that answers the positive value
    1 makes [_http_open] return [ESP_FAIL] before the transport is opened,
    for a writer whose transport would open; with the answer 0 the same
    open succeeds. *)
Lemma pre_request_positive_aborts :
  let E := Sample.server 200 in
  let p1 := _http_open E (Sample.fresh AUDIO_STREAM_WRITER
                            (Sample.hook_at HTTP_STREAM_PRE_REQUEST 1)) in
  let p0 := _http_open E (Sample.fresh AUDIO_STREAM_WRITER
                            (Sample.hook_at HTTP_STREAM_PRE_REQUEST 0)) in
  (fst p1 = ESP_FAIL /\ is_open (w_http (snd p1)) = false
   /\ w_calls (snd p1) = [CInit Sample.url 30000; Hook Sample.pre_msg])
  /\ (fst p0 = ESP_OK /\ is_open (w_http (snd p0)) = true).
Proof. vm_compute. repeat split. Qed.

(** C5, amended: the PreRequest hook aborts [_http_open] exactly when it
    answers a value other than 0, negative or positive: then [_http_open]
    returns [ESP_FAIL], [is_open] stays false and the transport is not
    opened.  With the answer 0 (or without a hook) [_http_open] goes on to
    open the transport, and a writer returns what the transport answers. *)
Theorem pre_request_nonzero_aborts (E : env) (w : world) (url : string) (c : nat) :
  w_uri w = Some url -> is_open (w_http w) = false -> env_init E = Some c ->
  let pre := hook_result (with_client (Some c) (w_http w))
               HTTP_STREAM_PRE_REQUEST None 0 in
  let r := fst (_http_open E w) in
  let w' := snd (_http_open E w) in
  (pre <> 0 ->
     r = ESP_FAIL /\ is_open (w_http w') = false
     /\ forall n, ~ In (COpen (Some c) n) (made w w'))
  /\ (pre = 0 -> exists n, In (COpen (Some c) n) (made w w'))
  /\ (pre = 0 -> stream_type (w_http w) = AUDIO_STREAM_WRITER ->
      r = env_open E (-1)).
Proof.
  intros Hu Ho Hi pre r w'. subst r w'.
  remember (_http_open E w) as p eqn:Hp.
  unfold _http_open in Hp. rewrite Hu, Ho, Hi in Hp. cbv zeta in Hp. world_cbn.
  assert (Hpre : hook_result
            (mk_http (type (w_http w)) (uri (w_http w)) false (Some c)
               (hook (w_http w)) (stream_type (w_http w)) (user_data (w_http w)))
            HTTP_STREAM_PRE_REQUEST None 0 = pre).
  { subst pre. unfold with_client. now rewrite Ho. }
  repeat split_run Hp.
  all: rewrite ?Ho, ?Hpre in *; unfold ESP_OK in *; subst p; world_cbn; made_cbn.
  all: split; [intros Hne | split; [intros He | intros He Hw]].
  all: try (rewrite He in *; discriminate).
  all: try (apply negb_false_iff, Z.eqb_eq in Hb; contradiction).
  all: try (rewrite Hw in *; discriminate).
  all: try reflexivity.
  all: try (split; [reflexivity | split; [exact Ho | intros n Hin; no_such_call Hin]]).
  all: eexists; find_call.
Qed.

Lemma pre_request_nonzero_aborts_witness :
  let E := Sample.server 200 in
  let w := Sample.fresh AUDIO_STREAM_WRITER
             (Sample.hook_at HTTP_STREAM_PRE_REQUEST 5) in
  (w_uri w = Some Sample.url /\ is_open (w_http w) = false
   /\ env_init E = Some 1%nat
   /\ hook_result (with_client (Some 1%nat) (w_http w))
        HTTP_STREAM_PRE_REQUEST None 0 <> 0)
  /\ fst (_http_open E w) = ESP_FAIL.
Proof.
  intros E w.
  assert (Hne : hook_result (with_client (Some 1%nat) (w_http w))
                  HTTP_STREAM_PRE_REQUEST None 0 <> 0)
    by (vm_compute; discriminate).
  split; [repeat split; exact Hne|].
  exact (proj1 (proj1 (pre_request_nonzero_aborts E w Sample.url 1%nat
                         eq_refl eq_refl eq_refl) Hne)).
Defined.

(** ** [_http_open]: the response status *)

(** The status code goes to the log only. *)
Lemma open_status_irrelevant (E : env) (w : world) (s : Z) :
  let p := _http_open E w in
  let q := _http_open (with_status_code s E) w in
  fst q = fst p /\ w_http (snd q) = w_http (snd p)
  /\ w_info (snd q) = w_info (snd p) /\ w_calls (snd q) = w_calls (snd p).
Proof.
  intros p q.
  assert (Hp : p = _http_open E w) by reflexivity.
  assert (Hq : q = _http_open (with_status_code s E) w) by reflexivity.
  clearbody p q.
  unfold _http_open in Hp, Hq.
  cbn [with_status_code env_init env_post_field env_open env_open_events
       env_write env_write_events env_fetch_headers env_fetch_events
       env_status_code] in Hq.
  cbv zeta in Hp, Hq.
  destruct (w_uri w) as [url|]; [|subst; repeat split].
  repeat split_run2 Hp Hq.
  all: repeat split_run Hq.
  all: subst p q; world_cbn; repeat split.
Qed.

(** Once [_http_open] has fetched the headers it succeeds. *)
Lemma open_after_fetch (E : env) (w : world) (c : esp_http_client_handle_t) :
  let p := _http_open E w in
  In (CFetchHeaders c) (made w (snd p)) ->
  fst p = ESP_OK /\ is_open (w_http (snd p)) = true
  /\ client (w_http (snd p)) = c
  /\ stream_type (w_http (snd p)) <> AUDIO_STREAM_WRITER
  /\ total_bytes (w_info (snd p)) = env_fetch_headers E
  /\ byte_pos (w_info (snd p)) = byte_pos (w_info w)
  /\ exists l, made w (snd p)
       = l ++ [CFetchHeaders c; CGetStatusCode c; SetInfo (w_info (snd p));
               ReportCodecFmt].
Proof.
  intros p. assert (Hp : p = _http_open E w) by reflexivity. clearbody p.
  unfold _http_open in Hp. cbv zeta in Hp.
  destruct (w_uri w) as [url|].
  all: repeat split_run Hp.
  all: subst p; made_cbn; intros Hin.
  all: try (rewrite skipn_all in Hin).
  all: try no_such_call Hin.
  all: assert (Hc : env_init E = c)
         by (in_cases Hin; try discriminate Hin; now injection Hin).
  all: rewrite Hc in *.
  all: rewrite ?deliver_byte_pos.
  all: repeat (split; [first [reflexivity
                             | intros Hw; rewrite Hw in *; discriminate]|]).
  all: ends_with.
Qed.

(** C6: in an open that has fetched the response headers (so a reader's),
    the status code does not decide anything: whatever code [s] the client
    reports, 200 or not, [_http_open] returns [ESP_OK], sets [is_open], and
    publishes the info, with [total_bytes] as fetched, by
    [audio_element_setinfo] followed by [audio_element_report_codec_fmt]. *)
Theorem open_status_never_fails (E : env) (w : world)
    (c : esp_http_client_handle_t) (s : Z) :
  In (CFetchHeaders c) (made w (snd (_http_open E w))) ->
  let q := _http_open (with_status_code s E) w in
  fst q = ESP_OK
  /\ is_open (w_http (snd q)) = true
  /\ total_bytes (w_info (snd q)) = env_fetch_headers E
  /\ w_info (snd q) = w_info (snd (_http_open E w))
  /\ exists l, made w (snd q)
       = l ++ [CFetchHeaders c; CGetStatusCode c; SetInfo (w_info (snd q));
               ReportCodecFmt].
Proof.
  intros Hin q.
  destruct (open_status_irrelevant E w s) as (_ & _ & Hinfo & Hcalls).
  fold q in Hinfo, Hcalls.
  assert (Hq : In (CFetchHeaders c) (made w (snd q)))
    by (unfold made in *; now rewrite Hcalls).
  destruct (open_after_fetch (with_status_code s E) w c Hq)
    as (Hr & Ho & _ & _ & Ht & _ & Hl).
  fold q in Hr, Ho, Ht, Hl. repeat split; assumption.
Qed.

Lemma open_status_never_fails_witness :
  let w := Sample.fresh AUDIO_STREAM_READER None in
  In (CFetchHeaders (Some 1%nat))
     (made w (snd (_http_open (Sample.server 200) w)))
  /\ fst (_http_open (with_status_code 404 (Sample.server 200)) w) = ESP_OK
  /\ is_open (w_http (snd (_http_open (with_status_code 404 (Sample.server 200)) w)))
     = true.
Proof.
  intros w.
  assert (Hin : In (CFetchHeaders (Some 1%nat))
                   (made w (snd (_http_open (Sample.server 200) w))))
    by (vm_compute; tauto).
  split; [exact Hin|].
  pose proof (open_status_never_fails (Sample.server 200) w (Some 1%nat) 404 Hin)
    as (Hr & Ho & _).
  split; assumption.
Defined.

(** Scenario A, run on the code: a reader without hook, [byte_pos = 0],
    response header [Content-Type: audio/mpeg]. *)
Example scenario_a :
  let p := _http_open (Sample.server 200) (Sample.fresh AUDIO_STREAM_READER None) in
  fst p = ESP_OK
  /\ is_open (w_http (snd p)) = true
  /\ w_info (snd p) = mk_info 0 1000 AUDIO_CODEC_MP3
  /\ w_calls (snd p)
     = [CInit Sample.url 30000; CGetPostField (Some 1%nat);
        COpen (Some 1%nat) 0; CFetchHeaders (Some 1%nat);
        CGetStatusCode (Some 1%nat);
        SetInfo (mk_info 0 1000 AUDIO_CODEC_MP3); ReportCodecFmt].
Proof. vm_compute. repeat split. Qed.

(** The codec an open publishes is the one the handler leaves after all the
    events of the open. *)
Lemma open_publishes_sniffed_codec (E : env) (w : world)
    (c : esp_http_client_handle_t) :
  In (CFetchHeaders c) (made w (snd (_http_open E w))) ->
  exists evts,
    codec_fmt (w_info (snd (_http_open E w)))
    = codec_fmt (deliver (evts ++ env_fetch_events E) (w_info w)).
Proof.
  remember (_http_open E w) as p eqn:Hp.
  unfold _http_open in Hp. cbv zeta in Hp.
  destruct (w_uri w) as [url|].
  all: repeat split_run Hp.
  all: subst p; made_cbn; intros Hin.
  all: try (rewrite skipn_all in Hin).
  all: try no_such_call Hin.
  all: first
    [ exists (env_open_events E ++ env_write_events E);
      now rewrite !deliver_app
    | exists (env_open_events E); now rewrite !deliver_app ].
Qed.

(** With [byte_pos] other than 0, an open that gets a client asks for the
    range from [byte_pos] on. *)
Lemma open_sends_range (E : env) (w : world) (url : string) (c : nat) :
  w_uri w = Some url -> is_open (w_http w) = false -> env_init E = Some c ->
  byte_pos (w_info w) <> 0 ->
  In (CSetHeader (Some c) "Range" (rang_header (byte_pos (w_info w))))
     (made w (snd (_http_open E w))).
Proof.
  intros Hu Ho Hi Hpos.
  remember (_http_open E w) as p eqn:Hp.
  unfold _http_open in Hp. rewrite Hu, Ho, Hi in Hp. cbv zeta in Hp. world_cbn.
  apply Z.eqb_neq in Hpos. rewrite Hpos in Hp. world_cbn.
  repeat split_run Hp.
  all: subst p; made_cbn; find_call.
Qed.

(** ** [_http_read] *)

Lemma to_signed_in_range (bits x : Z) :
  in_range bits x -> to_signed bits x = x.
Proof.
  unfold in_range, to_signed. intros H.
  assert (Hb : 0 < bits).
  { destruct (Z.ltb_spec 0 bits) as [Hp | Hn]; [exact Hp|].
    rewrite (Z.pow_neg_r 2 (bits - 1)) in H by lia. lia. }
  assert (H2 : 2 ^ bits = 2 * 2 ^ (bits - 1)).
  { rewrite <- Z.pow_succ_r by lia. f_equal. lia. }
  rewrite Z.mod_small by lia. lia.
Qed.

(** At the top of the range the sum wraps: with a 64-bit field holding
    2^63 - 1, a read that returns 1 leaves [byte_pos] at -2^63. *)
Example read_wraps_at_the_top :
  let w := mk_world (Sample.http AUDIO_STREAM_READER None) (Some Sample.url)
             (mk_info 9223372036854775807 0 AUDIO_CODEC_MP3)
             AEL_STATE_RUNNING [] [] in
  let r := _http_read 64 (Sample.server 200) None 1 w in
  fst r = 1
  /\ byte_pos (w_info (snd r)) = -9223372036854775808.
Proof. vm_compute. repeat split. Qed.

(** C8: [_http_read] returns what the OnResponse hook answers, or, when the
    hook answers 0 (or there is none), what the transport read gives.  If
    the value [K] it returns is positive, the info is published
    ([audio_element_setinfo] is the last call) with [byte_pos + K] stored in
    the [byte_pos] field, of any width [bits], and the other fields as
    before: [byte_pos] has grown by exactly [K], provided [byte_pos + K]
    does not overflow the field.  If [K] is zero or negative the info is
    unchanged and nothing was published. *)
Theorem read_advances_byte_pos (bits : Z) (E : env) (buffer : option string)
    (len : Z) (w : world) :
  let K := fst (_http_read bits E buffer len w) in
  let w' := snd (_http_read bits E buffer len w) in
  let answer := hook_result (w_http w) HTTP_STREAM_ON_RESPONSE buffer len in
  K = (if answer =? 0 then env_read E len else answer)
  /\ (0 < K ->
      byte_pos (w_info w') = to_signed bits (byte_pos (w_info w) + K)
      /\ total_bytes (w_info w') = total_bytes (w_info w)
      /\ codec_fmt (w_info w') = codec_fmt (w_info w)
      /\ exists l, made w w' = l ++ [SetInfo (w_info w')])
  /\ (0 < K -> in_range bits (byte_pos (w_info w) + K) ->
      byte_pos (w_info w') = byte_pos (w_info w) + K)
  /\ (K <= 0 ->
      w_info w' = w_info w /\ forall i, ~ In (SetInfo i) (made w w')).
Proof.
  intros K w' answer. subst K w'.
  remember (_http_read bits E buffer len w) as p eqn:Hp.
  unfold _http_read in Hp. cbv zeta in Hp.
  rewrite dispatch_hook_eq in Hp. cbv beta iota zeta in Hp. fold answer in Hp.
  destruct (answer =? 0) eqn:Ha; cbv beta iota zeta in Hp.
  all: match type of Hp with
       | context [if ?b then _ else _] => destruct b eqn:Hk
       end.
  all: subst p; made_cbn.
  all: try (apply Z.leb_le in Hk); try (apply Z.leb_gt in Hk).
  all: split; [reflexivity|].
  all: split; [intros Hpos | split; [intros Hpos Hfit | intros Hneg]]; try lia.
  all: try (repeat split; try reflexivity; ends_with; fail).
  all: try (apply to_signed_in_range; exact Hfit).
  all: split; [reflexivity|]; intros i Hin; try (rewrite app_nil_r in Hin).
  all: no_such_call Hin.
Qed.

Lemma read_advances_byte_pos_witness :
  let w := snd (_http_open (Sample.server 200) (Sample.fresh AUDIO_STREAM_READER None)) in
  let r := _http_read 64 (Sample.server 200) None 512 w in
  (0 < fst r /\ in_range 64 (byte_pos (w_info w) + fst r))
  /\ byte_pos (w_info (snd r)) = byte_pos (w_info w) + fst r.
Proof.
  intros w r.
  assert (Hpos : 0 < fst r) by (vm_compute; reflexivity).
  assert (Hfit : in_range 64 (byte_pos (w_info w) + fst r))
    by (vm_compute; split; [discriminate | reflexivity]).
  split; [split; [exact Hpos | exact Hfit]|].
  exact (proj1 (proj2 (proj2 (read_advances_byte_pos 64
                                (Sample.server 200) None 512 w))) Hpos Hfit).
Defined.

(** A hook answer is returned as it is: the transport is not read. *)
Example read_hook_answers :
  let w := Sample.fresh AUDIO_STREAM_READER (Sample.hook_at HTTP_STREAM_ON_RESPONSE 100) in
  let w2 := Sample.fresh AUDIO_STREAM_READER (Sample.hook_at HTTP_STREAM_ON_RESPONSE (-1)) in
  (fst (_http_read 64 (Sample.server 200) None 512 w) = 100
   /\ byte_pos (w_info (snd (_http_read 64 (Sample.server 200) None 512 w))) = 100)
  /\ (fst (_http_read 64 (Sample.server 200) None 512 w2) = -1
      /\ byte_pos (w_info (snd (_http_read 64 (Sample.server 200) None 512 w2))) = 0).
Proof. vm_compute. repeat split. Qed.

(** ** [_http_close] *)

(** One pass of the loop body clears [is_open] and touches nothing else of
    the element; it only dispatches hooks and fetches headers. *)
Lemma close_body_spec (w : world) :
  let w' := snd (close_body w) in
  w_http w' = (w_http (set_is_open false w))
  /\ w_info w' = w_info w /\ w_state w' = w_state w /\ w_uri w' = w_uri w
  /\ (forall c, ~ In (CClose c) (made w w'))
  /\ (forall c, ~ In (CCleanup c) (made w w'))
  /\ (forall i, ~ In (SetInfo i) (made w w')).
Proof.
  intros w'. subst w'.
  remember (close_body w) as p eqn:Hp.
  unfold close_body in Hp. cbv zeta in Hp.
  repeat split_run Hp.
  all: subst p; made_cbn; rewrite ?skipn_all.
  all: repeat split; intros x Hin; no_such_call Hin.
Qed.

Lemma close_body_not_open (w : world) :
  is_open (w_http (snd (close_body w))) = false.
Proof. now rewrite (proj1 (close_body_spec w)). Qed.

(** The loop ends: its body runs once on an open element and not at all on
    one that is not open, and two tests of the condition are enough. *)
Lemma close_loop_not_open (fuel : nat) (w : world) :
  (1 <= fuel)%nat -> is_open (w_http w) = false -> close_loop fuel w = Some w.
Proof.
  intros Hf Ho. destruct fuel as [|n]; [lia|].
  cbn [close_loop]. now rewrite Ho.
Qed.

Lemma close_loop_open (fuel : nat) (w : world) :
  (2 <= fuel)%nat -> is_open (w_http w) = true ->
  close_loop fuel w = Some (snd (close_body w)).
Proof.
  intros Hf Ho. destruct fuel as [|n]; [lia|].
  cbn [close_loop]. rewrite Ho.
  pose proof (close_body_not_open w) as Hc.
  destruct (close_body w) as [brk w1]. cbn [snd] in *.
  destruct brk; [reflexivity|].
  apply close_loop_not_open; [lia | exact Hc].
Qed.

Lemma close_loop_total (fuel : nat) (w : world) :
  (2 <= fuel)%nat ->
  exists w1, close_loop fuel w = Some w1
    /\ is_open (w_http w1) = false
    /\ client (w_http w1) = client (w_http w)
    /\ w_info w1 = w_info w /\ w_state w1 = w_state w /\ w_uri w1 = w_uri w.
Proof.
  intros Hf. destruct (is_open (w_http w)) eqn:Ho.
  - exists (snd (close_body w)). split; [now apply close_loop_open|].
    destruct (close_body_spec w) as (Hh & Hi & Hs & Hu & _).
    rewrite Hh. cbn. repeat split; assumption.
  - exists w. split; [apply close_loop_not_open; [lia | exact Ho]|].
    repeat split; assumption.
Qed.

Lemma http_close_eq (fuel : nat) (w : world) :
  _http_close fuel w
  = match close_loop fuel w with
    | None => None
    | Some w1 => Some (ESP_OK, close_tail w1)
    end.
Proof. reflexivity. Qed.

Lemma close_tail_spec (w : world) :
  w_http (close_tail w) = w_http w
  /\ w_state (close_tail w) = w_state w
  /\ w_uri (close_tail w) = w_uri w
  /\ total_bytes (w_info (close_tail w)) = total_bytes (w_info w)
  /\ codec_fmt (w_info (close_tail w)) = codec_fmt (w_info w)
  /\ byte_pos (w_info (close_tail w))
     = (if ael_state_eqb AEL_STATE_PAUSED (w_state w)
        then byte_pos (w_info w) else 0).
Proof.
  unfold close_tail. cbv zeta. world_cbn.
  destruct (ael_state_eqb AEL_STATE_PAUSED (w_state w)); world_cbn;
    repeat split.
Qed.

Lemma paused_eqb (s : audio_element_state_t) :
  ael_state_eqb AEL_STATE_PAUSED s = true <-> s = AEL_STATE_PAUSED.
Proof. destruct s; cbn; split; congruence. Qed.

(** C10: [_http_close] ends and never reports a failure: from any element,
    whatever its role, its state and the answers of its hook, it returns
    [ESP_OK], and [is_open] is false afterwards. *)
Theorem close_never_fails (fuel : nat) (w : world) :
  (2 <= fuel)%nat ->
  exists w', _http_close fuel w = Some (ESP_OK, w')
    /\ is_open (w_http w') = false.
Proof.
  intros Hf. destruct (close_loop_total fuel w Hf) as (w1 & Hl & Ho & _).
  exists (close_tail w1). rewrite http_close_eq, Hl. split; [reflexivity|].
  now rewrite (proj1 (close_tail_spec w1)).
Qed.

Lemma close_never_fails_witness :
  let w := snd (_http_open (Sample.server 200)
                  (Sample.fresh AUDIO_STREAM_WRITER
                     (Sample.hook_at HTTP_STREAM_POST_REQUEST (-1)))) in
  (2 <= 2)%nat
  /\ is_open (w_http w) = true
  /\ exists w', _http_close 2 w = Some (ESP_OK, w') /\ is_open (w_http w') = false.
Proof.
  intros w. split; [lia|]. split; [reflexivity|].
  exact (close_never_fails 2 w (le_n 2)).
Defined.

Lemma close_tail_paused (w : world) :
  w_state w = AEL_STATE_PAUSED -> w_info (close_tail w) = w_info w.
Proof.
  intros Hs. unfold close_tail. cbv zeta. world_cbn. now rewrite Hs.
Qed.

Lemma close_tail_calls (w : world) :
  made w (close_tail w)
  = [CClose (client (w_http w)); CCleanup (client (w_http w))]
    ++ (if ael_state_eqb AEL_STATE_PAUSED (w_state w) then []
        else [SetInfo (set_byte_pos 0 (w_info w))]).
Proof.
  unfold close_tail. cbv zeta. world_cbn.
  destruct (ael_state_eqb AEL_STATE_PAUSED (w_state w)); now made_cbn.
Qed.

(** C9: [_http_close] on an open element sets [byte_pos] to 0 when the state
    of the element is not [AEL_STATE_PAUSED], and leaves the info as it is
    when it is; [total_bytes] and [codec_fmt] are kept in both cases.  After
    a close in the paused state the next [_http_open] that gets a client
    asks for the range from the kept [byte_pos] on. *)
Theorem close_byte_pos (fuel : nat) (w : world) :
  (2 <= fuel)%nat -> is_open (w_http w) = true ->
  exists w', _http_close fuel w = Some (ESP_OK, w')
    /\ (w_state w <> AEL_STATE_PAUSED -> byte_pos (w_info w') = 0)
    /\ (w_state w = AEL_STATE_PAUSED ->
        w_info w' = w_info w
        /\ forall E url c,
             w_uri w = Some url -> env_init E = Some c ->
             byte_pos (w_info w) <> 0 ->
             In (CSetHeader (Some c) "Range" (rang_header (byte_pos (w_info w))))
                (made w' (snd (_http_open E w'))))
    /\ total_bytes (w_info w') = total_bytes (w_info w)
    /\ codec_fmt (w_info w') = codec_fmt (w_info w).
Proof.
  intros Hf Ho.
  destruct (close_loop_total fuel w Hf) as (w1 & Hl & Ho1 & _ & Hi & Hs & Hu).
  exists (close_tail w1). rewrite http_close_eq, Hl.
  destruct (close_tail_spec w1) as (Hh & _ & Hu' & Ht & Hc & Hb).
  split; [reflexivity|]. rewrite Ht, Hc, Hi. repeat split.
  - intros Hn. rewrite Hb, Hs.
    destruct (ael_state_eqb AEL_STATE_PAUSED (w_state w)) eqn:Hp; [|reflexivity].
    apply paused_eqb in Hp. contradiction.
  - rewrite <- Hi. apply close_tail_paused. congruence.
  - intros E url c Hurl Hinit Hpos.
    assert (Hinfo : w_info (close_tail w1) = w_info w)
      by (rewrite <- Hi; apply close_tail_paused; congruence).
    rewrite <- Hinfo. apply (open_sends_range E (close_tail w1) url c); try assumption.
    + congruence.
    + now rewrite Hh.
    + now rewrite Hinfo.
Qed.

Lemma close_byte_pos_witness :
  let w := snd (_http_read 64 (Sample.server 200) None 512
             (snd (_http_open (Sample.server 200)
                     (Sample.fresh AUDIO_STREAM_READER None)))) in
  (2 <= 2)%nat /\ is_open (w_http w) = true
  /\ byte_pos (w_info w) = 512
  /\ exists w', _http_close 2 w = Some (ESP_OK, w') /\ byte_pos (w_info w') = 0.
Proof.
  intros w. split; [lia|]. split; [reflexivity|]. split; [reflexivity|].
  destruct (close_byte_pos 2 w (le_n 2) eq_refl) as (w' & Hc & Hn & _).
  exists w'. split; [exact Hc|]. apply Hn. vm_compute. discriminate.
Defined.

(** C4, as stated, fails: [_http_close] on an element that is not open and
    not paused resets [byte_pos], here from 5 to 0. *)
Lemma close_not_open_resets_byte_pos :
  let w := mk_world (Sample.http AUDIO_STREAM_READER None) (Some Sample.url)
             (mk_info 5 1000 AUDIO_CODEC_MP3) AEL_STATE_STOPPED [] [] in
  is_open (w_http w) = false
  /\ byte_pos (w_info w) = 5
  /\ exists w', _http_close 2 w = Some (ESP_OK, w')
       /\ byte_pos (w_info w') = 0
       /\ byte_pos (w_info w') <> byte_pos (w_info w).
Proof.
  intros w. split; [reflexivity|]. split; [reflexivity|].
  eexists. split; [vm_compute; reflexivity|]. split; [reflexivity|].
  vm_compute. discriminate.
Qed.

(** C4, amended: [_http_close] on an element that is not open returns
    [ESP_OK], dispatches no hook and fetches no headers, and leaves
    [is_open], the handle stored in [http->client], [total_bytes] and
    [codec_fmt] as they are; it still calls [esp_http_client_close] and
    [esp_http_client_cleanup] on the stored handle, and [byte_pos] is kept
    if the element is paused and set to 0 otherwise.  In particular, when
    the element was left so by a completed [_http_close], the second one
    leaves the whole info as the first left it. *)
Theorem close_when_not_open (fuel : nat) (w : world) :
  (1 <= fuel)%nat -> is_open (w_http w) = false ->
  exists w', _http_close fuel w = Some (ESP_OK, w')
    /\ w_http w' = w_http w
    /\ total_bytes (w_info w') = total_bytes (w_info w)
    /\ codec_fmt (w_info w') = codec_fmt (w_info w)
    /\ byte_pos (w_info w')
       = (if ael_state_eqb AEL_STATE_PAUSED (w_state w)
          then byte_pos (w_info w) else 0)
    /\ (forall m, ~ In (Hook m) (made w w'))
    /\ (forall c, ~ In (CFetchHeaders c) (made w w'))
    /\ (exists l, made w w'
          = CClose (client (w_http w)) :: CCleanup (client (w_http w)) :: l)
    /\ (forall fuel0 w0 r0,
          _http_close fuel0 w0 = Some (r0, w) -> w_info w' = w_info w).
Proof.
  intros Hf Ho. exists (close_tail w).
  rewrite http_close_eq, (close_loop_not_open fuel w Hf Ho).
  destruct (close_tail_spec w) as (Hh & _ & _ & Ht & Hc & Hb).
  split; [reflexivity|]. repeat (split; [assumption|]).
  split; [|split; [|split]].
  - intros m Hin. rewrite close_tail_calls in Hin.
    destruct (ael_state_eqb AEL_STATE_PAUSED (w_state w)); no_such_call Hin.
  - intros c Hin. rewrite close_tail_calls in Hin.
    destruct (ael_state_eqb AEL_STATE_PAUSED (w_state w)); no_such_call Hin.
  - rewrite close_tail_calls. eexists. reflexivity.
  - intros fuel0 w0 r0 H0. rewrite http_close_eq in H0.
    destruct (close_loop fuel0 w0) as [w1|]; [|discriminate].
    injection H0 as _ Hw.
    destruct (close_tail_spec w1) as (_ & Hs1 & _ & _ & _ & Hb1).
    destruct (ael_state_eqb AEL_STATE_PAUSED (w_state w)) eqn:Hp.
    + apply close_tail_paused. now apply paused_eqb.
    + assert (H0 : byte_pos (w_info w) = 0).
      { rewrite <- Hw, Hb1. rewrite <- Hs1, Hw. now rewrite Hp. }
      destruct (w_info w) as [b t k], (w_info (close_tail w)) as [b' t' k'].
      cbn in *. congruence.
Qed.

Lemma close_when_not_open_witness :
  let w := mk_world (Sample.http AUDIO_STREAM_READER None) (Some Sample.url)
             (mk_info 5 1000 AUDIO_CODEC_MP3) AEL_STATE_PAUSED [] [] in
  (1 <= 1)%nat /\ is_open (w_http w) = false
  /\ exists w', _http_close 1 w = Some (ESP_OK, w') /\ byte_pos (w_info w') = 5.
Proof.
  intros w. split; [lia|]. split; [reflexivity|].
  destruct (close_when_not_open 1 w (le_n 1) eq_refl)
    as (w' & Hc & _ & _ & _ & Hb & _).
  exists w'. split; [exact Hc | exact Hb].
Defined.

(** Scenario B, run on the code: a writer without hook opens, closes, and
    closes again.  The first close fetches the headers and releases the
    client; the second makes the two release calls on the same handle once
    more and publishes the info again. *)
Example scenario_b :
  let w0 := Sample.fresh AUDIO_STREAM_WRITER None in
  let o := _http_open (Sample.server 200) w0 in
  exists w1 w2,
    fst o = ESP_OK /\ is_open (w_http (snd o)) = true
    /\ _http_close 2 (snd o) = Some (ESP_OK, w1)
    /\ made (snd o) w1
       = [CFetchHeaders (Some 1%nat); CClose (Some 1%nat); CCleanup (Some 1%nat);
          SetInfo (mk_info 0 0 AUDIO_CODEC_NONE)]
    /\ _http_close 2 w1 = Some (ESP_OK, w2)
    /\ made w1 w2
       = [CClose (Some 1%nat); CCleanup (Some 1%nat);
          SetInfo (mk_info 0 0 AUDIO_CODEC_NONE)]
    /\ w_http w2 = w_http w1 /\ w_info w2 = w_info w1.
Proof.
  do 2 eexists. split; [reflexivity|]. split; [reflexivity|].
  split; [vm_compute; reflexivity|]. split; [reflexivity|].
  split; [vm_compute; reflexivity|]. repeat split.
Qed.

(** ** Hook aborts and the client handle *)

(** When a hook call of [_http_open], at PreRequest or at OnRequest, answers
    a negative value, the open fails, the element stays closed, and the
    client it made is neither closed nor cleaned up: it stays in
    [http->client]. *)
Lemma open_hook_abort (E : env) (w : world)
    (f : http_stream_event_msg_t -> Z) (m : http_stream_event_msg_t) :
  hook (w_http w) = Some f ->
  In (Hook m) (made w (snd (_http_open E w))) ->
  msg_event_id m = HTTP_STREAM_PRE_REQUEST
  \/ msg_event_id m = HTTP_STREAM_ON_REQUEST ->
  f m < 0 ->
  let r := fst (_http_open E w) in
  let w' := snd (_http_open E w) in
  r = ESP_FAIL /\ is_open (w_http w') = false
  /\ client (w_http w') = env_init E /\ env_init E <> None
  /\ (forall c, ~ In (CClose c) (made w w'))
  /\ (forall c, ~ In (CCleanup c) (made w w')).
Proof.
  intros Hf Hin Hev Hneg r w'. subst r w'.
  remember (_http_open E w) as p eqn:Hp.
  unfold _http_open in Hp. cbv zeta in Hp.
  destruct (w_uri w) as [url|].
  all: repeat split_run Hp.
  all: subst p; unfold made in *; world_cbn;
       rewrite <- ?app_assoc in *; rewrite ?skipn_own_prefix, ?skipn_all in *;
       cbn [app] in *.
  all: hook_cases Hf Hin.
  all: bool_facts.
  all: try (exfalso; destruct Hev as [Hev | Hev]; congruence).
  all: try (exfalso; lia).
  all: try (exfalso; rewrite Hr in *; lia).
  all: assert (Hi : env_init E <> None)
         by (destruct (env_init E); [discriminate | discriminate Hb0]).
  all: repeat (split; [first [reflexivity | assumption]|]).
  all: split; intros c Hc'; no_such_call Hc'.
Qed.

(** [_http_close] on an element that is not open closes and cleans up the
    client in [http->client]. *)
Lemma close_releases_stored_client (fuel : nat) (w : world) :
  (1 <= fuel)%nat -> is_open (w_http w) = false ->
  exists w', _http_close fuel w = Some (ESP_OK, w')
    /\ exists l, made w w'
         = CClose (client (w_http w)) :: CCleanup (client (w_http w)) :: l.
Proof.
  intros Hf Ho. exists (close_tail w).
  rewrite http_close_eq, (close_loop_not_open fuel w Hf Ho).
  split; [reflexivity|]. rewrite close_tail_calls. eexists. reflexivity.
Qed.

(** C2, amended: whenever a hook dispatched during [_http_open], at
    PreRequest (either role) or at OnRequest (reader), answers a negative
    value, [_http_open] returns [ESP_FAIL] and [is_open] stays false; the
    client made by this open is not released by [_http_open], it stays
    stored in the element, and the [_http_close] that follows closes and
    cleans up that client. *)
Theorem open_hook_abort_releases_at_close (E : env) (w : world)
    (f : http_stream_event_msg_t -> Z) (m : http_stream_event_msg_t) :
  hook (w_http w) = Some f ->
  In (Hook m) (made w (snd (_http_open E w))) ->
  msg_event_id m = HTTP_STREAM_PRE_REQUEST
  \/ msg_event_id m = HTTP_STREAM_ON_REQUEST ->
  f m < 0 ->
  let r := fst (_http_open E w) in
  let w' := snd (_http_open E w) in
  r = ESP_FAIL /\ is_open (w_http w') = false
  /\ client (w_http w') = env_init E /\ env_init E <> None
  /\ (forall c, ~ In (CClose c) (made w w'))
  /\ (forall c, ~ In (CCleanup c) (made w w'))
  /\ forall fuel, (1 <= fuel)%nat ->
       exists w'', _http_close fuel w' = Some (ESP_OK, w'')
         /\ exists l, made w' w''
              = CClose (env_init E) :: CCleanup (env_init E) :: l.
Proof.
  intros Hf Hin Hev Hneg r w'.
  destruct (open_hook_abort E w f m Hf Hin Hev Hneg)
    as (Hr & Ho & Hc & Hi & Hnc & Hnu).
  fold w' in Ho, Hc, Hnc, Hnu.
  repeat (split; [assumption|]).
  intros fuel Hfuel. rewrite <- Hc.
  now apply close_releases_stored_client.
Qed.

Lemma open_hook_abort_releases_at_close_witness :
  let w := Sample.fresh AUDIO_STREAM_READER
             (Sample.hook_at HTTP_STREAM_ON_REQUEST (-1)) in
  let E := Sample.server 200 in
  (In (Hook Sample.on_request_msg) (made w (snd (_http_open E w)))
   /\ hook_result (with_client (Some 1%nat) (w_http w))
        HTTP_STREAM_ON_REQUEST None 0 < 0)
  /\ fst (_http_open E w) = ESP_FAIL
  /\ is_open (w_http (snd (_http_open E w))) = false
  /\ client (w_http (snd (_http_open E w))) = Some 1%nat.
Proof.
  intros w E.
  assert (Hin : In (Hook Sample.on_request_msg) (made w (snd (_http_open E w))))
    by (vm_compute; tauto).
  assert (Hneg : (fun m : http_stream_event_msg_t =>
                    match msg_event_id m with
                    | HTTP_STREAM_ON_REQUEST => -1
                    | _ => 0
                    end) Sample.on_request_msg < 0)
    by (vm_compute; reflexivity).
  split; [split; [exact Hin | vm_compute; reflexivity]|].
  destruct (open_hook_abort_releases_at_close E w _ Sample.on_request_msg
              eq_refl Hin (or_intror eq_refl) Hneg)
    as (Hr & Ho & Hc & _).
  repeat split; assumption.
Defined.

(** * Further properties *)

(** ** The sniffer on a whole response *)

Lemma deliver_codec (evts : list esp_http_client_event_t)
    (info : audio_element_info_t) :
  codec_fmt (deliver evts info)
  = if existsb is_sniffed evts then AUDIO_CODEC_MP3 else codec_fmt info.
Proof.
  revert info; induction evts as [|e evts IH]; intros info; [reflexivity|].
  rewrite deliver_cons, IH. cbn [existsb].
  unfold _http_event_handle, is_sniffed at 2.
  destruct (is_on_header (event_id e)); cbn [negb andb orb snd]; [|reflexivity].
  destruct (sniffed_key (header_key e)); cbn [orb]; [|reflexivity].
  cbn [set_codec_fmt codec_fmt]. rewrite get_audio_type_constant.
  now destruct (existsb is_sniffed evts).
Qed.

(** X1: what a whole sequence of client events does to the info: if it has
    a header named Content-Disposition or Content-Type, [codec_fmt] becomes
    MP3, whatever the header says, and nothing else changes; if it has
    none, the info is as before. *)
Theorem response_sets_mp3_or_nothing (evts : list esp_http_client_event_t)
    (info : audio_element_info_t) :
  deliver evts info
  = if existsb is_sniffed evts
    then set_codec_fmt AUDIO_CODEC_MP3 info
    else info.
Proof.
  pose proof (deliver_codec evts info) as Hc.
  destruct (deliver_frame evts info) as [Hb Ht].
  destruct (deliver evts info) as [b t k], info as [b0 t0 k0].
  cbn [byte_pos total_bytes codec_fmt set_codec_fmt] in *. subst b t k.
  now destruct (existsb is_sniffed evts).
Qed.

Lemma sniffed_key_folded (k : string) :
  sniffed_key k = true
  <-> CStr.folded k = CStr.folded "content-disposition"
      \/ CStr.folded k = CStr.folded "content-type".
Proof.
  unfold sniffed_key. rewrite orb_true_iff, !Z.eqb_eq.
  rewrite !SnifferFacts.strcasecmp_zero_iff. reflexivity.
Qed.

(** X2: the handler always returns [ESP_OK], and it changes the info for
    exactly one kind of event: [HTTP_EVENT_ON_HEADER] with a key that,
    letter case apart, is the whole name [Content-Disposition] or
    [Content-Type].  Then it writes [codec_fmt] and nothing else; for any
    other event id or key the info is untouched. *)
Theorem handler_acts_on_two_headers (e : esp_http_client_event_t)
    (info : audio_element_info_t) :
  fst (_http_event_handle e info) = ESP_OK
  /\ byte_pos (snd (_http_event_handle e info)) = byte_pos info
  /\ total_bytes (snd (_http_event_handle e info)) = total_bytes info
  /\ (snd (_http_event_handle e info) <> info ->
      event_id e = HTTP_EVENT_ON_HEADER
      /\ (CStr.folded (header_key e) = CStr.folded "content-disposition"
          \/ CStr.folded (header_key e) = CStr.folded "content-type"))
  /\ (event_id e = HTTP_EVENT_ON_HEADER ->
      CStr.folded (header_key e) = CStr.folded "content-disposition"
      \/ CStr.folded (header_key e) = CStr.folded "content-type" ->
      snd (_http_event_handle e info)
      = set_codec_fmt (get_audio_type (header_value e)) info).
Proof.
  unfold _http_event_handle.
  destruct (is_on_header (event_id e)) eqn:Hh; cbn [negb fst snd].
  - destruct (sniffed_key (header_key e)) eqn:Hk; cbn [fst snd].
    + do 3 (split; [reflexivity|]). split; [|reflexivity].
      intros _. split.
      * destruct (event_id e); try discriminate; reflexivity.
      * now apply sniffed_key_folded.
    + do 3 (split; [reflexivity|]). split; [congruence|].
      intros _ Hf. apply sniffed_key_folded in Hf. congruence.
  - do 3 (split; [reflexivity|]). split; [congruence|].
    intros He. rewrite He in Hh. discriminate.
Qed.

Lemma handler_acts_on_two_headers_witness :
  let e := mk_evt HTTP_EVENT_ON_HEADER "CONTENT-type" "audio/wav" in
  let info := mk_info 3 9 AUDIO_CODEC_NONE in
  snd (_http_event_handle e info) = mk_info 3 9 AUDIO_CODEC_MP3.
Proof.
  intros e info.
  exact (proj2 (proj2 (proj2 (proj2 (handler_acts_on_two_headers e info))))
           eq_refl (or_intror eq_refl)).
Defined.

(** ** [_http_write] *)

(** X3: [_http_write] never touches the element or the info (it does not
    advance [byte_pos]), and it writes to the transport exactly when the
    OnRequest hook answers 0 (or there is no hook), the whole buffer in one
    call.  A negative answer is returned as [ESP_FAIL], whatever its value;
    a positive answer is returned as it is; on 0 the result of the transport
    write is returned, also when it is zero or negative. *)
Theorem write_contract (E : env) (buffer : option string) (len : Z) (w : world) :
  let answer := hook_result (w_http w) HTTP_STREAM_ON_REQUEST buffer len in
  let r := fst (_http_write E buffer len w) in
  let w' := snd (_http_write E buffer len w) in
  w_http w' = w_http w /\ w_info w' = w_info w
  /\ made w w'
     = hook_calls (w_http w) HTTP_STREAM_ON_REQUEST buffer len
       ++ (if answer =? 0 then [CWrite (client (w_http w)) buffer len] else [])
  /\ (answer < 0 -> r = ESP_FAIL)
  /\ (0 < answer -> r = answer)
  /\ (answer = 0 -> r = env_write E buffer len).
Proof.
  intros answer r w'. subst r w'.
  remember (_http_write E buffer len w) as p eqn:Hp.
  unfold _http_write in Hp. cbv zeta in Hp.
  rewrite dispatch_hook_eq in Hp. cbv beta iota zeta in Hp. fold answer in Hp.
  repeat split_run Hp.
  all: subst p; made_cbn; bool_facts.
  all: assert (Ha : (answer =? 0) = true \/ (answer =? 0) = false)
         by (destruct (answer =? 0); tauto).
  all: destruct Ha as [Ha | Ha]; rewrite Ha;
       [apply Z.eqb_eq in Ha | apply Z.eqb_neq in Ha]; try lia.
  all: repeat split; try reflexivity; try lia; try (symmetry; apply app_nil_r).
Qed.

Lemma write_contract_witness :
  let w := Sample.fresh AUDIO_STREAM_WRITER
             (Sample.hook_at HTTP_STREAM_ON_REQUEST (-7)) in
  hook_result (w_http w) HTTP_STREAM_ON_REQUEST None 64 < 0
  /\ fst (_http_write (Sample.server 200) None 64 w) = ESP_FAIL.
Proof.
  intros w.
  assert (H : hook_result (w_http w) HTTP_STREAM_ON_REQUEST None 64 < 0)
    by (vm_compute; reflexivity).
  split; [exact H|].
  exact (proj1 (proj2 (proj2 (proj2 (write_contract (Sample.server 200)
                                       None 64 w)))) H).
Defined.

(** ** [_http_read], call after call *)

Lemma read_step (bits : Z) (E : env) (buffer : option string) (len : Z)
    (w : world) :
  let answer := hook_result (w_http w) HTTP_STREAM_ON_RESPONSE buffer len in
  let k := fst (_http_read bits E buffer len w) in
  let w' := snd (_http_read bits E buffer len w) in
  w_http w' = w_http w
  /\ w_info w'
     = (if 0 <? k
        then set_byte_pos (to_signed bits (byte_pos (w_info w) + k)) (w_info w)
        else w_info w)
  /\ made w w'
     = hook_calls (w_http w) HTTP_STREAM_ON_RESPONSE buffer len
       ++ (if answer =? 0 then [CRead (client (w_http w)) len] else [])
       ++ (if 0 <? k then [SetInfo (w_info w')] else []).
Proof.
  intros answer k w'. subst k w'.
  remember (_http_read bits E buffer len w) as p eqn:Hp.
  unfold _http_read in Hp. cbv zeta in Hp.
  rewrite dispatch_hook_eq in Hp. cbv beta iota zeta in Hp. fold answer in Hp.
  destruct (answer =? 0) eqn:Ha; cbv beta iota zeta in Hp.
  all: match type of Hp with
       | context [if ?b then _ else _] => destruct b eqn:Hk
       end.
  all: subst p; made_cbn.
  all: try (apply Z.leb_le in Hk); try (apply Z.leb_gt in Hk).
  all: match goal with
       | |- context [0 <? ?x] =>
           let Hx := fresh "Hx" in
           destruct (0 <? x) eqn:Hx;
           [apply Z.ltb_lt in Hx | apply Z.ltb_ge in Hx]; try lia
       end.
  all: rewrite ?app_nil_r.
  all: split; [reflexivity|]; split; reflexivity.
Qed.

(** X4: the calls of one [_http_read], in order: the OnResponse hook if
    there is one, then one transport read of [len] bytes exactly when the
    hook answered 0, then [audio_element_setinfo] exactly when the value
    returned is positive.  The [http_stream_t] is not changed. *)
Theorem read_calls (bits : Z) (E : env) (buffer : option string) (len : Z)
    (w : world) :
  let answer := hook_result (w_http w) HTTP_STREAM_ON_RESPONSE buffer len in
  let k := fst (_http_read bits E buffer len w) in
  let w' := snd (_http_read bits E buffer len w) in
  w_http w' = w_http w
  /\ made w w'
     = hook_calls (w_http w) HTTP_STREAM_ON_RESPONSE buffer len
       ++ (if answer =? 0 then [CRead (client (w_http w)) len] else [])
       ++ (if 0 <? k then [SetInfo (w_info w')] else []).
Proof.
  intros answer k w'.
  destruct (read_step bits E buffer len w) as (Hh & _ & Hm). split; assumption.
Qed.

Lemma bytes_read_nonneg (ks : list Z) : 0 <= bytes_read ks.
Proof.
  induction ks as [|k ks IH]; [cbn; lia|].
  cbn [bytes_read fold_right]. fold (bytes_read ks).
  destruct (0 <? k) eqn:Hk; [apply Z.ltb_lt in Hk|]; lia.
Qed.

Lemma read_all_spec (bits : Z) (steps : list (env * option string * Z))
    (w : world) :
  - 2 ^ (bits - 1) <= byte_pos (w_info w) ->
  byte_pos (w_info w) + bytes_read (fst (read_all bits steps w))
    < 2 ^ (bits - 1) ->
  w_http (snd (read_all bits steps w)) = w_http w
  /\ w_info (snd (read_all bits steps w))
     = set_byte_pos
         (byte_pos (w_info w) + bytes_read (fst (read_all bits steps w)))
         (w_info w).
Proof.
  revert w; induction steps as [|[[E buffer] len] rest IH]; intros w Hlo Hhi.
  - cbn. rewrite Z.add_0_r. split; [reflexivity|]. now destruct (w_info w).
  - cbn [read_all] in *.
    destruct (read_step bits E buffer len w) as (Hh & Hi & _).
    destruct (_http_read bits E buffer len w) as [k w1]. cbn [fst snd] in *.
    specialize (IH w1). destruct (read_all bits rest w1) as [ks w2].
    cbn [fst snd] in *.
    cbn [bytes_read fold_right] in *. fold (bytes_read ks) in *.
    pose proof (bytes_read_nonneg ks) as Hks.
    assert (Hw1 : w_info w1
                  = set_byte_pos (byte_pos (w_info w) + (if 0 <? k then k else 0))
                      (w_info w)).
    { rewrite Hi. destruct (0 <? k) eqn:Hk.
      - apply Z.ltb_lt in Hk. rewrite to_signed_in_range; [reflexivity|].
        unfold in_range. lia.
      - rewrite Z.add_0_r. now destruct (w_info w). }
    assert (Hk0 : 0 <= (if 0 <? k then k else 0))
      by (destruct (0 <? k) eqn:Hk; [apply Z.ltb_lt in Hk|]; lia).
    destruct IH as (IHh & IHi).
    { rewrite Hw1. cbn. lia. }
    { rewrite Hw1. cbn. lia. }
    rewrite IHh, Hh, IHi, Hw1. split; [reflexivity|].
    unfold set_byte_pos. cbn. f_equal. lia.
Qed.

(** X5: over any sequence of [_http_read] calls, as long as [byte_pos]
    with the bytes read added stays in the range of the [byte_pos] field,
    [byte_pos] grows by the sum of the positive values returned, so it
    never decreases; zero and negative results add nothing.
    [total_bytes], [codec_fmt] and the [http_stream_t] stay as they
    were. *)
Theorem reads_add_up (bits : Z) (steps : list (env * option string * Z))
    (w : world) :
  let ks := fst (read_all bits steps w) in
  let w' := snd (read_all bits steps w) in
  in_range bits (byte_pos (w_info w)) ->
  in_range bits (byte_pos (w_info w) + bytes_read ks) ->
  byte_pos (w_info w') = byte_pos (w_info w) + bytes_read ks
  /\ byte_pos (w_info w) <= byte_pos (w_info w')
  /\ total_bytes (w_info w') = total_bytes (w_info w)
  /\ codec_fmt (w_info w') = codec_fmt (w_info w)
  /\ w_http w' = w_http w.
Proof.
  intros ks w' Hlo Hhi.
  destruct (read_all_spec bits steps w) as (Hh & Hi).
  { apply Hlo. }
  { apply Hhi. }
  fold ks in Hi. fold w' in Hh, Hi. rewrite Hi. cbn.
  pose proof (bytes_read_nonneg ks).
  repeat split; try assumption; lia.
Qed.

Lemma reads_add_up_witness :
  let w := snd (_http_open (Sample.server 200)
                  (Sample.fresh AUDIO_STREAM_READER None)) in
  let steps := [(Sample.server 200, None, 512); (Sample.server 200, None, 0);
                (Sample.server 200, None, 100)] in
  (in_range 64 (byte_pos (w_info w))
   /\ in_range 64 (byte_pos (w_info w) + bytes_read (fst (read_all 64 steps w))))
  /\ byte_pos (w_info (snd (read_all 64 steps w))) = 612.
Proof.
  intros w steps.
  assert (Hlo : in_range 64 (byte_pos (w_info w)))
    by (vm_compute; split; [discriminate | reflexivity]).
  assert (Hhi : in_range 64 (byte_pos (w_info w)
                             + bytes_read (fst (read_all 64 steps w))))
    by (vm_compute; split; [discriminate | reflexivity]).
  split; [split; assumption|].
  exact (proj1 (reads_add_up 64 steps w Hlo Hhi)).
Defined.

(** ** [_http_open]: outcomes *)

Ltac open_runs Hp :=
  unfold _http_open in Hp; cbv zeta in Hp;
  match type of Hp with
  | context [w_uri ?w] => destruct (w_uri w) as [?url|] eqn:?Huri
  end;
  repeat split_run Hp.

(** X6: on an element that is not open, [_http_open] sets [is_open]
    exactly when it returns [ESP_OK], for both roles. *)
Theorem open_sets_is_open_iff_ok (E : env) (w : world) :
  is_open (w_http w) = false ->
  (is_open (w_http (snd (_http_open E w))) = true
   <-> fst (_http_open E w) = ESP_OK).
Proof.
  intros Ho. remember (_http_open E w) as p eqn:Hp.
  open_runs Hp.
  all: subst p; world_cbn; bool_facts.
  all: unfold ESP_FAIL, ESP_ERR_NO_MEM in *.
  all: split; intros H; try reflexivity; try congruence; try discriminate.
Qed.

Lemma open_sets_is_open_iff_ok_witness :
  let w := Sample.fresh AUDIO_STREAM_WRITER None in
  is_open (w_http w) = false
  /\ is_open (w_http (snd (_http_open (Sample.server 200) w))) = true.
Proof.
  intros w. split; [reflexivity|].
  exact (proj2 (open_sets_is_open_iff_ok (Sample.server 200) w eq_refl) eq_refl).
Defined.

(** X8: an [_http_open] that does not return [ESP_OK], for whatever
    reason, leaves the info and [is_open] as they were and calls neither
    [audio_element_setinfo] nor [audio_element_report_codec_fmt]. *)
Theorem failed_open_publishes_nothing (E : env) (w : world) :
  fst (_http_open E w) <> ESP_OK ->
  w_info (snd (_http_open E w)) = w_info w
  /\ is_open (w_http (snd (_http_open E w))) = is_open (w_http w)
  /\ (forall i, ~ In (SetInfo i) (made w (snd (_http_open E w))))
  /\ ~ In ReportCodecFmt (made w (snd (_http_open E w))).
Proof.
  intros Hr. remember (_http_open E w) as p eqn:Hp.
  open_runs Hp.
  all: subst p; made_cbn; rewrite ?skipn_all; bool_facts.
  all: try (exfalso; apply Hr; reflexivity).
  all: try (exfalso; apply Hr; assumption).
  all: split; [reflexivity|]; split; [first [reflexivity | congruence]|].
  all: split; [intros i Hin | intros Hin]; no_such_call Hin.
Qed.

Lemma failed_open_publishes_nothing_witness :
  let w := Sample.fresh AUDIO_STREAM_READER
             (Sample.hook_at HTTP_STREAM_POST_REQUEST (-1)) in
  fst (_http_open (Sample.server 200) w) <> ESP_OK
  /\ w_info (snd (_http_open (Sample.server 200) w)) = w_info w.
Proof.
  intros w.
  assert (H : fst (_http_open (Sample.server 200) w) <> ESP_OK)
    by (vm_compute; discriminate).
  split; [exact H|].
  exact (proj1 (failed_open_publishes_nothing (Sample.server 200) w H)).
Defined.

(** X9: [_http_open] never changes [byte_pos], on any path.  A writer's
    open does not change the info at all, and it neither reads the pending
    request body, nor writes to the transport, nor fetches headers. *)
Theorem open_keeps_byte_pos (E : env) (w : world) :
  byte_pos (w_info (snd (_http_open E w))) = byte_pos (w_info w)
  /\ (stream_type (w_http w) = AUDIO_STREAM_WRITER ->
      w_info (snd (_http_open E w)) = w_info w
      /\ (forall c, ~ In (CFetchHeaders c) (made w (snd (_http_open E w))))
      /\ (forall c, ~ In (CGetPostField c) (made w (snd (_http_open E w))))
      /\ (forall c b l, ~ In (CWrite c b l) (made w (snd (_http_open E w))))).
Proof.
  remember (_http_open E w) as p eqn:Hp.
  open_runs Hp.
  all: subst p; made_cbn; rewrite ?skipn_all; rewrite ?deliver_byte_pos.
  all: split; [reflexivity|]; intros Hw.
  all: try (rewrite Hw in *; discriminate).
  all: split; [reflexivity|].
  all: split; [|split]; intros; intros Hin; no_such_call Hin.
Qed.

Lemma open_keeps_byte_pos_witness :
  let w := Sample.fresh AUDIO_STREAM_WRITER None in
  stream_type (w_http w) = AUDIO_STREAM_WRITER
  /\ w_info (snd (_http_open (Sample.server 200) w)) = w_info w.
Proof.
  intros w. split; [reflexivity|].
  exact (proj1 (proj2 (open_keeps_byte_pos (Sample.server 200) w) eq_refl)).
Defined.

(** X10: when [esp_http_client_init] returns [NULL], [_http_open] returns
    [ESP_ERR_NO_MEM] after that one call: no hook is dispatched, [is_open]
    and the info stay as they were, and [http->client] now holds [NULL],
    whatever handle it held before. *)
Theorem open_without_memory (E : env) (w : world) (url : string) :
  w_uri w = Some url -> is_open (w_http w) = false -> env_init E = None ->
  fst (_http_open E w) = ESP_ERR_NO_MEM
  /\ client (w_http (snd (_http_open E w))) = None
  /\ is_open (w_http (snd (_http_open E w))) = false
  /\ w_info (snd (_http_open E w)) = w_info w
  /\ made w (snd (_http_open E w)) = [CInit url 30000].
Proof.
  intros Hu Ho Hi. unfold _http_open. rewrite Hu, Ho, Hi. cbv zeta.
  world_cbn. made_cbn. rewrite Ho. repeat split.
Qed.

(** ** [_http_open]: the request *)

Lemma filter_hook_calls (p : call -> bool) h ty buffer len :
  (forall m, p (Hook m) = false) -> filter p (hook_calls h ty buffer len) = [].
Proof.
  intros Hp. unfold hook_calls. destruct (hook h); [|reflexivity].
  cbn. now rewrite Hp.
Qed.

Ltac filter_calls :=
  repeat first
    [ rewrite filter_app
    | rewrite filter_hook_calls by reflexivity
    | progress cbn [filter app is_cwrite is_set_header is_hook is_release negb] ].

(** X11: in a reader's open that has opened the transport, the pending
    request body is written exactly once, as [(buffer, post_len)], when
    [post_len] is not 0, the buffer is not [NULL] and the OnRequest hook
    answered 0; otherwise (no body, or a positive or negative answer) the
    transport is not written at all.  If that write returns a value that is
    not positive, the open fails and [is_open] stays false. *)
Theorem open_writes_pending_body (E : env) (w : world) (url : string) (c : nat)
    (buffer : option string) (post_len : Z) :
  w_uri w = Some url -> is_open (w_http w) = false -> env_init E = Some c ->
  stream_type (w_http w) <> AUDIO_STREAM_WRITER ->
  hook_result (with_client (Some c) (w_http w)) HTTP_STREAM_PRE_REQUEST None 0 = 0 ->
  env_post_field E = (buffer, post_len) ->
  env_open E post_len = ESP_OK ->
  let answer := hook_result (with_client (Some c) (w_http w))
                  HTTP_STREAM_ON_REQUEST buffer post_len in
  let body := negb (post_len =? 0) && is_some buffer && (answer =? 0) in
  filter is_cwrite (made w (snd (_http_open E w)))
  = (if body then [CWrite (Some c) buffer post_len] else [])
  /\ (body = true -> env_write E buffer post_len <= 0 ->
      fst (_http_open E w) = ESP_FAIL
      /\ is_open (w_http (snd (_http_open E w))) = false).
Proof.
  intros Hu Ho Hi Hs Hpre Hpf Hop answer body.
  assert (Hbody : body = negb (post_len =? 0) && is_some buffer && (answer =? 0))
    by reflexivity.
  assert (Hans : hook_result (with_client (Some c) (w_http w))
                   HTTP_STREAM_ON_REQUEST buffer post_len = answer)
    by reflexivity.
  clearbody body answer.
  remember (_http_open E w) as p eqn:Hp.
  unfold _http_open in Hp. rewrite Hu, Ho, Hi, Hpf in Hp. cbv zeta in Hp.
  world_cbn. unfold with_client in *. rewrite Ho in Hpre, Hans.
  repeat split_run Hp.
  all: rewrite ?Ho in *.
  all: try (rewrite Hpre in *; discriminate).
  all: try (rewrite Hop in *; discriminate).
  all: try (exfalso; apply Hs; destruct (stream_type (w_http w)); try discriminate;
            reflexivity).
  all: rewrite ?Hans in *; subst body.
  all: subst p; made_cbn; filter_calls.
  all: try match goal with
           | H : (negb _ && _ && _) = _ |- _ => rewrite H in *
           end.
  all: try match goal with
           | H : (?a <? 0) = true |- _ =>
               let Hz := fresh "Hz" in
               assert (Hz : (a =? 0) = false)
                 by (apply Z.ltb_lt in H; apply Z.eqb_neq; lia);
               rewrite Hz, andb_false_r in *
           end.
  all: split; [reflexivity|]; intros Hb' Hw; try discriminate.
  all: try (split; [reflexivity | exact Ho]).
  all: exfalso; cbn [andb] in *; bool_facts; lia.
Qed.

Lemma open_writes_pending_body_witness :
  let E := mk_env (Some 1%nat) (Some "q=1", 3) (fun _ => ESP_OK) []
             (fun _ len => len) [] 1000 [] 200 (fun len => len) in
  let w := Sample.fresh AUDIO_STREAM_READER None in
  (stream_type (w_http w) <> AUDIO_STREAM_WRITER
   /\ env_post_field E = (Some "q=1", 3))
  /\ filter is_cwrite (made w (snd (_http_open E w)))
     = [CWrite (Some 1%nat) (Some "q=1") 3].
Proof.
  intros E w.
  assert (Hs : stream_type (w_http w) <> AUDIO_STREAM_WRITER)
    by (vm_compute; discriminate).
  split; [split; [exact Hs | reflexivity]|].
  exact (proj1 (open_writes_pending_body E w Sample.url 1%nat (Some "q=1") 3
                  eq_refl eq_refl eq_refl Hs eq_refl eq_refl eq_refl)).
Defined.

(** X12: an open that gets a client sets exactly one request header,
    [Range], when [byte_pos] is not 0, for both roles, and none when it is
    0; for a [byte_pos] in the range of [int] the value is [bytes=] followed
    by [byte_pos] in decimal and [-]. *)
Lemma to_int_in_range (n : Z) :
  -2147483648 <= n < 2147483648 -> to_int n = n.
Proof. intros H. unfold to_int. rewrite Z.mod_small; lia. Qed.

Theorem open_range_header (E : env) (w : world) (url : string) (c : nat) :
  w_uri w = Some url -> is_open (w_http w) = false -> env_init E = Some c ->
  let pos := byte_pos (w_info w) in
  filter is_set_header (made w (snd (_http_open E w)))
  = (if pos =? 0 then []
     else [CSetHeader (Some c) "Range" (rang_header pos)])
  /\ (-2147483648 <= pos < 2147483648 ->
      rang_header pos
      = ("bytes=" ++ NilZero.string_of_int (Z.to_int pos) ++ "-")%string).
Proof.
  intros Hu Ho Hi pos. split.
  - remember (_http_open E w) as p eqn:Hp.
    unfold _http_open in Hp. rewrite Hu, Ho, Hi in Hp. cbv zeta in Hp.
    world_cbn. fold pos in Hp.
    destruct (pos =? 0) eqn:Hz; cbn [negb] in Hp.
    all: repeat split_run Hp.
    all: subst p; made_cbn; filter_calls; reflexivity.
  - intros Hr. unfold rang_header. now rewrite to_int_in_range.
Qed.

Lemma open_range_header_witness :
  let w := mk_world (Sample.http AUDIO_STREAM_READER None) (Some Sample.url)
             (mk_info 4096 0 AUDIO_CODEC_NONE) AEL_STATE_PAUSED [] [] in
  (w_uri w = Some Sample.url /\ is_open (w_http w) = false)
  /\ filter is_set_header (made w (snd (_http_open (Sample.server 206) w)))
     = [CSetHeader (Some 1%nat) "Range" "bytes=4096-"].
Proof.
  intros w. split; [split; reflexivity|].
  exact (proj1 (open_range_header (Sample.server 206) w Sample.url 1%nat
                  eq_refl eq_refl eq_refl)).
Defined.

(** ** [_http_open]: failures after the request *)

(** X13: when the PostRequest hook answers a negative value during a
    reader's open, the open returns [ESP_FAIL] with [is_open] false and the
    info unchanged; its last call is [esp_http_client_close], the only
    release call it makes (no cleanup), and no headers are fetched. *)
Theorem open_post_request_abort (E : env) (w : world)
    (f : http_stream_event_msg_t -> Z) (m : http_stream_event_msg_t) :
  hook (w_http w) = Some f ->
  In (Hook m) (made w (snd (_http_open E w))) ->
  msg_event_id m = HTTP_STREAM_POST_REQUEST ->
  f m < 0 ->
  fst (_http_open E w) = ESP_FAIL
  /\ is_open (w_http (snd (_http_open E w))) = false
  /\ w_info (snd (_http_open E w)) = w_info w
  /\ filter is_release (made w (snd (_http_open E w))) = [CClose (env_init E)]
  /\ (exists l, made w (snd (_http_open E w)) = l ++ [CClose (env_init E)])
  /\ (forall c, ~ In (CFetchHeaders c) (made w (snd (_http_open E w)))).
Proof.
  intros Hf Hin Hev Hneg.
  remember (_http_open E w) as p eqn:Hp.
  open_runs Hp.
  all: subst p; unfold made in *; world_cbn;
       rewrite <- ?app_assoc in *; rewrite ?skipn_own_prefix, ?skipn_all in *;
       cbn [app] in *.
  all: hook_cases Hf Hin.
  all: bool_facts.
  all: try (exfalso; congruence).
  all: try (exfalso; rewrite Hr in *; lia).
  all: split; [reflexivity|]; split; [assumption|]; split; [reflexivity|].
  all: split; [filter_calls; reflexivity|].
  all: split; [ends_with | intros c' Hc'; no_such_call Hc'].
Qed.

Lemma open_post_request_abort_witness :
  let w := Sample.fresh AUDIO_STREAM_READER
             (Sample.hook_at HTTP_STREAM_POST_REQUEST (-1)) in
  let E := Sample.server 200 in
  let m := mk_msg HTTP_STREAM_POST_REQUEST (Some 1%nat) 7 None 0 in
  In (Hook m) (made w (snd (_http_open E w)))
  /\ filter is_release (made w (snd (_http_open E w))) = [CClose (Some 1%nat)].
Proof.
  intros w E m.
  assert (Hin : In (Hook m) (made w (snd (_http_open E w))))
    by (vm_compute; tauto).
  assert (Hneg : (fun x : http_stream_event_msg_t =>
                    match msg_event_id x with
                    | HTTP_STREAM_POST_REQUEST => -1
                    | _ => 0
                    end) m < 0)
    by (vm_compute; reflexivity).
  split; [exact Hin|].
  exact (proj1 (proj2 (proj2 (proj2
           (open_post_request_abort E w _ m eq_refl Hin eq_refl Hneg))))).
Defined.

(** X14: what the two roles return when the transport does not open.  A
    writer returns the code of [esp_http_client_open (client, -1)] as it is
    and sets [is_open] exactly when that code is [ESP_OK]; a reader returns
    [ESP_FAIL] for every code other than [ESP_OK].  In both cases the open
    call is the last call made. *)
Theorem open_transport_refused (E : env) (w : world) (url : string) (c : nat) :
  w_uri w = Some url -> is_open (w_http w) = false -> env_init E = Some c ->
  hook_result (with_client (Some c) (w_http w)) HTTP_STREAM_PRE_REQUEST None 0 = 0 ->
  let r := fst (_http_open E w) in
  let w' := snd (_http_open E w) in
  (stream_type (w_http w) = AUDIO_STREAM_WRITER ->
     r = env_open E (-1)
     /\ is_open (w_http w') = (env_open E (-1) =? ESP_OK)
     /\ exists l, made w w' = l ++ [COpen (Some c) (-1)])
  /\ (stream_type (w_http w) <> AUDIO_STREAM_WRITER ->
      env_open E (snd (env_post_field E)) <> ESP_OK ->
      r = ESP_FAIL /\ is_open (w_http w') = false
      /\ exists l, made w w' = l ++ [COpen (Some c) (snd (env_post_field E))]).
Proof.
  intros Hu Ho Hi Hpre r w'. subst r w'.
  remember (_http_open E w) as p eqn:Hp.
  unfold _http_open in Hp. rewrite Hu, Ho, Hi in Hp. cbv zeta in Hp.
  world_cbn. unfold with_client in *. rewrite Ho in Hpre.
  repeat split_run Hp.
  all: rewrite ?Ho in *.
  all: try (rewrite Hpre in *; discriminate).
  all: subst p; made_cbn; cbn [snd] in *.
  all: split; [intros Hw | intros Hw Hop].
  all: try (rewrite Hw in *; discriminate).
  all: try (exfalso; apply Hw; destruct (stream_type (w_http w)); try discriminate;
            reflexivity).
  all: bool_facts; try contradiction.
  all: split; [reflexivity|]; split; [first [assumption | symmetry; assumption
            | reflexivity | symmetry; apply Z.eqb_neq; assumption
            | symmetry; apply Z.eqb_eq; assumption]|].
  all: ends_with.
Qed.

Lemma open_transport_refused_witness :
  let E := mk_env (Some 1%nat) (None, 0) (fun _ => 28674) []
             (fun _ len => len) [] 0 [] 0 (fun len => len) in
  let w := Sample.fresh AUDIO_STREAM_WRITER None in
  stream_type (w_http w) = AUDIO_STREAM_WRITER
  /\ fst (_http_open E w) = 28674
  /\ is_open (w_http (snd (_http_open E w))) = false.
Proof.
  intros E w. split; [reflexivity|].
  destruct (proj1 (open_transport_refused E w Sample.url 1%nat
                     eq_refl eq_refl eq_refl eq_refl) eq_refl)
    as (Hr & Ho & _).
  split; [exact Hr | exact Ho].
Defined.

(** ** What the hook is told *)

Lemma hook_calls_msg h ty buffer len (m : http_stream_event_msg_t) :
  In (Hook m) (hook_calls h ty buffer len) ->
  m = mk_msg ty (client h) (user_data h) buffer len.
Proof.
  unfold hook_calls. destruct (hook h); [|intros []].
  intros [H | []]. now injection H.
Qed.

Ltac msg_cases H :=
  repeat match type of H with
    | In _ (_ ++ _) => apply in_app_or in H; destruct H as [H | H]
    | In (Hook _) (hook_calls _ _ _ _) => apply hook_calls_msg in H
    | In _ (_ :: _) => destruct H as [H | H]
    | In _ [] => contradiction H
    | Hook _ = Hook _ => fail 1
    | _ = _ => discriminate H
    end.

(** X15: every message [_http_open] passes to the hook carries the
    element's [user_data] and the client just created, and it is one of
    three: PreRequest with no buffer, OnRequest with the pending request
    body and its length, PostRequest with no buffer.  The hook is never
    told OnResponse or FinishRequest during an open. *)
Theorem open_hook_messages (E : env) (w : world) (m : http_stream_event_msg_t) :
  In (Hook m) (made w (snd (_http_open E w))) ->
  msg_user_data m = user_data (w_http w)
  /\ msg_http_client m = env_init E
  /\ (m = mk_msg HTTP_STREAM_PRE_REQUEST (env_init E) (user_data (w_http w)) None 0
      \/ m = mk_msg HTTP_STREAM_ON_REQUEST (env_init E) (user_data (w_http w))
               (fst (env_post_field E)) (snd (env_post_field E))
      \/ m = mk_msg HTTP_STREAM_POST_REQUEST (env_init E) (user_data (w_http w))
               None 0).
Proof.
  intros Hin. remember (_http_open E w) as p eqn:Hp.
  open_runs Hp.
  all: subst p; unfold made in *; world_cbn;
       rewrite <- ?app_assoc in *; rewrite ?skipn_own_prefix, ?skipn_all in *;
       cbn [app] in *.
  all: msg_cases Hin.
  all: subst m; cbn [msg_user_data msg_http_client fst snd user_data client].
  all: split; [reflexivity|]; split; [reflexivity|]; tauto.
Qed.

Lemma open_hook_messages_witness :
  let w := Sample.fresh AUDIO_STREAM_READER (Sample.hook_at HTTP_STREAM_PRE_REQUEST 0) in
  In (Hook Sample.pre_msg) (made w (snd (_http_open (Sample.server 200) w)))
  /\ msg_user_data Sample.pre_msg = user_data (w_http w).
Proof.
  intros w.
  assert (Hin : In (Hook Sample.pre_msg)
                   (made w (snd (_http_open (Sample.server 200) w))))
    by (vm_compute; tauto).
  split; [exact Hin|].
  exact (proj1 (open_hook_messages (Sample.server 200) w Sample.pre_msg Hin)).
Defined.

(** ** A hook that always defers *)

Lemma dispatch_without_hook ty buffer len (w : world) :
  hook (w_http w) = None -> dispatch_hook ty buffer len w = (0, w).
Proof. unfold dispatch_hook. now intros ->. Qed.

Lemma dispatch_deferring ty buffer len (w : world) :
  hook (w_http w) = deferring_hook ->
  dispatch_hook ty buffer len w
  = (0, emit (Hook (mk_msg ty (client (w_http w)) (user_data (w_http w))
                      buffer len)) w).
Proof. unfold dispatch_hook, deferring_hook. now intros ->. Qed.

Ltac world_cbn2 :=
  cbn [w_http w_uri w_info w_state w_calls w_log add_calls emit log set_client
       set_http set_is_open set_hook audio_element_setinfo
       audio_element_report_codec_fmt
       with_client set_byte_pos set_total_bytes set_codec_fmt
       byte_pos total_bytes codec_fmt
       type uri is_open client hook stream_type user_data fst snd is_some negb]
    in *.

(** Two runs, one without hook and one with the deferring hook. *)
Ltac split_hooks H0 H1 :=
  first
    [ rewrite dispatch_without_hook in H0 by reflexivity;
      rewrite dispatch_deferring in H1 by reflexivity;
      cbv beta iota zeta in H0, H1; world_cbn2
    | match type of H0 with
      | context [env_post_field ?E] =>
          let buffer := fresh "buffer" in
          let post_len := fresh "post_len" in
          destruct (env_post_field E) as [buffer post_len] eqn:?
      | context [if ?b then _ else _] =>
          let Hb := fresh "Hb" in destruct b eqn:Hb; world_cbn2
      end ].

(** X16: for [_http_open], a hook that answers 0 to everything is the same
    as no hook: the same result, info, [is_open] and client, and the same
    calls in the same order once the hook calls are left out. *)
Theorem deferring_hook_is_no_hook (E : env) (w : world) :
  let p0 := _http_open E (set_hook None w) in
  let p1 := _http_open E (set_hook deferring_hook w) in
  fst p1 = fst p0
  /\ w_info (snd p1) = w_info (snd p0)
  /\ is_open (w_http (snd p1)) = is_open (w_http (snd p0))
  /\ client (w_http (snd p1)) = client (w_http (snd p0))
  /\ filter (fun c => negb (is_hook c)) (made w (snd p1)) = made w (snd p0)
  /\ (forall m, ~ In (Hook m) (made w (snd p0))).
Proof.
  intros p0 p1.
  assert (H0 : p0 = _http_open E (set_hook None w)) by reflexivity.
  assert (H1 : p1 = _http_open E (set_hook deferring_hook w)) by reflexivity.
  clearbody p0 p1.
  unfold _http_open in H0, H1. cbv zeta in H0, H1. world_cbn2.
  destruct (w_uri w) as [url|].
  all: repeat split_hooks H0 H1.
  all: try discriminate.
  all: subst p0 p1; unfold made; world_cbn2;
       rewrite <- ?app_assoc; rewrite ?skipn_own_prefix, ?skipn_all; cbn [app].
  all: do 4 (split; [reflexivity|]).
  all: split; [reflexivity | intros m Hin; no_such_call Hin].
Qed.

(** ** The open flag and the client *)

Lemma open_client_present (E : env) (w : world) :
  client_present (w_http w) -> client_present (w_http (snd (_http_open E w))).
Proof.
  unfold client_present. intros Hinv.
  remember (_http_open E w) as p eqn:Hp.
  open_runs Hp.
  all: subst p; world_cbn; try assumption.
  all: intros Ho; try discriminate; try congruence.
  all: try (apply Hinv; reflexivity).
  all: intros Hn; rewrite Hn in *; discriminate.
Qed.

(** X7: [is_open] implies a client.  The four callbacks keep this
    invariant of the [http_stream_t]: [_http_open] sets [is_open] only with
    the non-[NULL] handle it has just stored, [_http_read] and [_http_write]
    do not change the [http_stream_t], and [_http_close] leaves [is_open]
    false. *)
Theorem client_present_kept (bits : Z) (E : env) (buffer : option string)
    (len : Z) (fuel : nat) (w : world) :
  client_present (w_http w) ->
  client_present (w_http (snd (_http_open E w)))
  /\ client_present (w_http (snd (_http_read bits E buffer len w)))
  /\ client_present (w_http (snd (_http_write E buffer len w)))
  /\ (forall r w', _http_close fuel w = Some (r, w') ->
        client_present (w_http w') /\ is_open (w_http w') = false).
Proof.
  intros Hinv. split; [now apply open_client_present|].
  split; [now rewrite (proj1 (read_step bits E buffer len w))|].
  split.
  - remember (_http_write E buffer len w) as p eqn:Hp.
    unfold _http_write in Hp. cbv zeta in Hp.
    repeat split_run Hp. all: subst p; world_cbn; exact Hinv.
  - intros r w' Hc. rewrite http_close_eq in Hc.
    destruct (close_loop fuel w) as [w1|] eqn:Hl; [|discriminate].
    injection Hc as _ <-.
    assert (Ho : is_open (w_http w1) = false).
    { destruct fuel as [|n]; [discriminate|]. cbn [close_loop] in Hl.
      destruct (is_open (w_http w)) eqn:Hw.
      - pose proof (close_body_not_open w) as Hb.
        destruct (close_body w) as [brk w2]. cbn [snd] in Hb.
        destruct brk.
        + now injection Hl as <-.
        + destruct n as [|n']; [discriminate|]. cbn [close_loop] in Hl.
          rewrite Hb in Hl. now injection Hl as <-.
      - now injection Hl as <-. }
    rewrite (proj1 (close_tail_spec w1)).
    split; [|exact Ho]. unfold client_present. congruence.
Qed.

Lemma client_present_kept_witness :
  let w := Sample.fresh AUDIO_STREAM_READER None in
  client_present (w_http w)
  /\ client_present (w_http (snd (_http_open (Sample.server 200) w))).
Proof.
  intros w.
  assert (H : client_present (w_http w)) by (intros Ho; discriminate Ho).
  split; [exact H|].
  exact (proj1 (client_present_kept 64 (Sample.server 200) None 0 2 w H)).
Defined.

(** ** [_http_close]: the calls it makes *)

Lemma close_body_calls (w : world) :
  let h := w_http (set_is_open false w) in
  let c := client (w_http w) in
  w_calls (snd (close_body w))
  = w_calls w
    ++ (if stream_type_eqb (stream_type (w_http w)) AUDIO_STREAM_WRITER
        then hook_calls h HTTP_STREAM_POST_REQUEST None 0
             ++ (if hook_result h HTTP_STREAM_POST_REQUEST None 0 <? 0 then []
                 else CFetchHeaders c
                      :: hook_calls h HTTP_STREAM_FINISH_REQUEST None 0)
        else []).
Proof.
  intros h c. subst h c.
  remember (close_body w) as p eqn:Hp.
  unfold close_body in Hp. cbv zeta in Hp. world_cbn.
  destruct (stream_type_eqb (stream_type (w_http w)) AUDIO_STREAM_WRITER);
    cbn [negb] in Hp.
  all: repeat split_run Hp.
  all: subst p; world_cbn; rewrite <- ?app_assoc; cbn [app].
  all: rewrite ?app_nil_r; reflexivity.
Qed.

Lemma close_tail_w_calls (w : world) :
  w_calls (close_tail w)
  = w_calls w
    ++ [CClose (client (w_http w)); CCleanup (client (w_http w))]
    ++ (if ael_state_eqb AEL_STATE_PAUSED (w_state w) then []
        else [SetInfo (set_byte_pos 0 (w_info w))]).
Proof.
  unfold close_tail. cbv zeta. world_cbn.
  destruct (ael_state_eqb AEL_STATE_PAUSED (w_state w)); world_cbn;
    rewrite <- ?app_assoc; reflexivity.
Qed.

Lemma close_trace (fuel : nat) (w : world) :
  (2 <= fuel)%nat ->
  let h := w_http (set_is_open false w) in
  let c := client (w_http w) in
  exists w', _http_close fuel w = Some (ESP_OK, w')
    /\ w_calls w'
       = w_calls w
         ++ (if is_open (w_http w)
                && stream_type_eqb (stream_type (w_http w)) AUDIO_STREAM_WRITER
             then hook_calls h HTTP_STREAM_POST_REQUEST None 0
                  ++ (if hook_result h HTTP_STREAM_POST_REQUEST None 0 <? 0
                      then []
                      else CFetchHeaders c
                           :: hook_calls h HTTP_STREAM_FINISH_REQUEST None 0)
             else [])
         ++ [CClose c; CCleanup c]
         ++ (if ael_state_eqb AEL_STATE_PAUSED (w_state w) then []
             else [SetInfo (set_byte_pos 0 (w_info w))]).
Proof.
  intros Hf h c.
  destruct (is_open (w_http w)) eqn:Ho.
  - exists (close_tail (snd (close_body w))).
    rewrite http_close_eq, (close_loop_open fuel w Hf Ho).
    split; [reflexivity|].
    pose proof (close_body_calls w) as Hb. cbv zeta in Hb.
    destruct (close_body_spec w) as (Hh & Hi & Hs & _).
    rewrite close_tail_w_calls, Hb, Hh, Hi, Hs.
    cbn [andb]. rewrite <- app_assoc. reflexivity.
  - exists (close_tail w).
    rewrite http_close_eq, (close_loop_not_open fuel w); [|lia|exact Ho].
    split; [reflexivity|]. cbn [andb app]. apply close_tail_w_calls.
Qed.

(** X17: the calls of one [_http_close], in order.  Only an open writer
    gets the writer steps: the PostRequest hook, then, unless it answered a
    negative value, a header fetch and the FinishRequest hook (whose answer
    changes nothing).  Every close then calls [esp_http_client_close] and
    [esp_http_client_cleanup] on the stored handle, and last publishes the
    info with [byte_pos] 0 unless the element is paused. *)
Theorem close_calls (fuel : nat) (w : world) :
  (2 <= fuel)%nat ->
  let h := w_http (set_is_open false w) in
  let c := client (w_http w) in
  exists w', _http_close fuel w = Some (ESP_OK, w')
    /\ made w w'
       = (if is_open (w_http w)
             && stream_type_eqb (stream_type (w_http w)) AUDIO_STREAM_WRITER
          then hook_calls h HTTP_STREAM_POST_REQUEST None 0
               ++ (if hook_result h HTTP_STREAM_POST_REQUEST None 0 <? 0 then []
                   else CFetchHeaders c
                        :: hook_calls h HTTP_STREAM_FINISH_REQUEST None 0)
          else [])
         ++ [CClose c; CCleanup c]
         ++ (if ael_state_eqb AEL_STATE_PAUSED (w_state w) then []
             else [SetInfo (set_byte_pos 0 (w_info w))]).
Proof.
  intros Hf h c.
  destruct (close_trace fuel w Hf) as (w' & Hc & Hw).
  exists w'. split; [exact Hc|].
  unfold made. fold h c in Hw. rewrite Hw. apply skipn_own_prefix.
Qed.

Lemma close_calls_witness :
  let w := snd (_http_open (Sample.server 200)
                  (Sample.fresh AUDIO_STREAM_WRITER
                     (Sample.hook_at HTTP_STREAM_POST_REQUEST (-1)))) in
  (2 <= 2)%nat
  /\ exists w', _http_close 2 w = Some (ESP_OK, w')
       /\ made w w'
          = [Hook (mk_msg HTTP_STREAM_POST_REQUEST (Some 1%nat) 7 None 0);
             CClose (Some 1%nat); CCleanup (Some 1%nat);
             SetInfo (mk_info 0 0 AUDIO_CODEC_NONE)].
Proof.
  intros w. split; [lia|].
  destruct (close_calls 2 w (le_n 2)) as (w' & Hc & Hm).
  exists w'. split; [exact Hc | exact Hm].
Defined.

(** X18: [_http_close] does not clear [http->client].  After a close, a
    second close finds the same handle and calls [esp_http_client_close]
    and [esp_http_client_cleanup] on it once more; the [http_stream_t] and
    the info are then as the first close left them. *)
Theorem second_close_releases_again (fuel1 fuel2 : nat) (w : world) :
  (2 <= fuel1)%nat -> (1 <= fuel2)%nat ->
  let c := client (w_http w) in
  exists w1 w2,
    _http_close fuel1 w = Some (ESP_OK, w1)
    /\ _http_close fuel2 w1 = Some (ESP_OK, w2)
    /\ client (w_http w1) = c
    /\ filter is_release (made w w1) = [CClose c; CCleanup c]
    /\ filter is_release (made w1 w2) = [CClose c; CCleanup c]
    /\ w_http w2 = w_http w1 /\ w_info w2 = w_info w1.
Proof.
  intros Hf1 Hf2 c.
  destruct (close_trace fuel1 w Hf1) as (w1 & Hc1 & Hm1).
  apply made_app in Hm1.
  pose proof Hc1 as Hc1'. rewrite http_close_eq in Hc1'.
  destruct (close_loop_total fuel1 w Hf1) as (l1 & Hl & Ho & Hcl & Hi & Hs & _).
  rewrite Hl in Hc1'. injection Hc1' as Hw1.
  destruct (close_tail_spec l1) as (Hh1 & Hs1 & _ & _ & _ & Hb1).
  assert (Ho1 : is_open (w_http w1) = false) by (rewrite <- Hw1, Hh1; exact Ho).
  assert (Hc : client (w_http w1) = c) by (rewrite <- Hw1, Hh1; exact Hcl).
  exists w1, (close_tail w1).
  split; [exact Hc1|]. split.
  { rewrite http_close_eq, (close_loop_not_open fuel2 w1 Hf2 Ho1). reflexivity. }
  split; [exact Hc|]. split.
  { rewrite Hm1. fold c.
    destruct (is_open (w_http w) && stream_type_eqb (stream_type (w_http w))
                AUDIO_STREAM_WRITER);
      destruct (hook_result (w_http (set_is_open false w))
                  HTTP_STREAM_POST_REQUEST None 0 <? 0);
      destruct (ael_state_eqb AEL_STATE_PAUSED (w_state w));
      filter_calls; reflexivity. }
  split.
  { rewrite close_tail_calls, Hc.
    destruct (ael_state_eqb AEL_STATE_PAUSED (w_state w1)); reflexivity. }
  destruct (close_tail_spec w1) as (Hh2 & _ & _ & Ht2 & Hk2 & Hb2).
  split; [exact Hh2|].
  destruct (ael_state_eqb AEL_STATE_PAUSED (w_state w1)) eqn:Hp.
  - apply close_tail_paused. now apply paused_eqb.
  - assert (Hz : byte_pos (w_info w1) = 0).
    { rewrite <- Hw1, Hb1. rewrite <- Hs1, Hw1, Hp. reflexivity. }
    destruct (w_info w1) as [b t k], (w_info (close_tail w1)) as [b' t' k'].
    cbn in *. congruence.
Qed.

Lemma second_close_releases_again_witness :
  let w := snd (_http_open (Sample.server 200)
                  (Sample.fresh AUDIO_STREAM_READER None)) in
  ((2 <= 2)%nat /\ (1 <= 1)%nat)
  /\ exists w1 w2,
       _http_close 2 w = Some (ESP_OK, w1)
       /\ _http_close 1 w1 = Some (ESP_OK, w2)
       /\ filter is_release (made w1 w2)
          = [CClose (Some 1%nat); CCleanup (Some 1%nat)].
Proof.
  intros w. split; [split; lia|].
  destruct (second_close_releases_again 2 1 w (le_n 2) (le_n 1))
    as (w1 & w2 & H1 & H2 & _ & _ & H5 & _).
  exists w1, w2. repeat split; assumption.
Defined.

(** ** From open to close *)

Lemma open_ok_client (E : env) (w : world) :
  fst (_http_open E w) = ESP_OK ->
  is_open (w_http (snd (_http_open E w))) = true
  /\ client (w_http (snd (_http_open E w))) = env_init E
  /\ env_init E <> None
  /\ filter is_release (made w (snd (_http_open E w))) = [].
Proof.
  intros Hr. remember (_http_open E w) as p eqn:Hp.
  open_runs Hp.
  all: subst p; made_cbn; bool_facts.
  all: unfold ESP_FAIL, ESP_ERR_NO_MEM in *; try discriminate.
  all: assert (Hi : env_init E <> None)
         by (intros Hn; rewrite Hn in *; discriminate).
  all: try (exfalso; congruence).
  all: repeat (split; [first [reflexivity | assumption]|]).
  all: filter_calls; reflexivity.
Qed.

(** X19: from open to close.  An [_http_open] that returns [ESP_OK] has
    made a non-[NULL] client and released nothing; the [_http_close] that
    follows closes and cleans up exactly that client, once each, in this
    order, and leaves [is_open] false. *)
Theorem open_then_close_releases_once (E : env) (w : world) (fuel : nat) :
  fst (_http_open E w) = ESP_OK -> (2 <= fuel)%nat ->
  let w1 := snd (_http_open E w) in
  exists w2,
    _http_close fuel w1 = Some (ESP_OK, w2)
    /\ env_init E <> None
    /\ filter is_release (made w w1) = []
    /\ filter is_release (made w1 w2)
       = [CClose (env_init E); CCleanup (env_init E)]
    /\ is_open (w_http w2) = false.
Proof.
  intros Hr Hf w1.
  destruct (open_ok_client E w Hr) as (Ho & Hc & Hi & Hn). fold w1 in Ho, Hc, Hn.
  destruct (close_trace fuel w1 Hf) as (w2 & Hc2 & Hm).
  apply made_app in Hm.
  exists w2. split; [exact Hc2|]. split; [exact Hi|]. split; [exact Hn|].
  split.
  - rewrite Hm, Hc.
    destruct (is_open (w_http w1) && stream_type_eqb (stream_type (w_http w1))
                AUDIO_STREAM_WRITER);
      destruct (hook_result (w_http (set_is_open false w1))
                  HTTP_STREAM_POST_REQUEST None 0 <? 0);
      destruct (ael_state_eqb AEL_STATE_PAUSED (w_state w1));
      filter_calls; reflexivity.
  - rewrite http_close_eq in Hc2.
    destruct (close_loop_total fuel w1 Hf) as (l1 & Hl & Hol & _).
    rewrite Hl in Hc2. injection Hc2 as <-.
    now rewrite (proj1 (close_tail_spec l1)).
Qed.

Lemma open_then_close_releases_once_witness :
  let w := Sample.fresh AUDIO_STREAM_READER None in
  let E := Sample.server 200 in
  (fst (_http_open E w) = ESP_OK /\ (2 <= 2)%nat)
  /\ exists w2, _http_close 2 (snd (_http_open E w)) = Some (ESP_OK, w2)
       /\ is_open (w_http w2) = false.
Proof.
  intros w E. split; [split; [reflexivity | lia]|].
  destruct (open_then_close_releases_once E w 2 eq_refl (le_n 2))
    as (w2 & H1 & _ & _ & _ & H5).
  exists w2. split; assumption.
Defined.

(** ** Creation and destruction *)

(** X20: the element [http_stream_init] creates when both allocations
    succeed: open, close, process and destroy are this file's callbacks and
    the task stack is 6144 bytes; a reader gets [_http_read] and a writer
    [_http_write], and the other of the two (both, for any other type) is
    left as the default configuration has it.  Its data is not open, has no
    client, and carries the type, hook and user data of the
    configuration. *)
Theorem init_wires_callbacks (default : audio_element_cfg_t)
    (config : http_stream_cfg_t) :
  exists cfg,
    fst (http_stream_init_run default true true config)
    = Some (cfg, http_stream_init config)
    /\ el_open cfg = Some cb_http_open
    /\ el_close cfg = Some cb_http_close
    /\ el_process cfg = Some cb_http_process
    /\ el_destroy cfg = Some cb_http_destroy
    /\ el_task_stack cfg = 6144
    /\ el_read cfg
       = (if stream_type_eqb (cfg_type config) AUDIO_STREAM_READER
          then Some cb_http_read else el_read default)
    /\ el_write cfg
       = (if stream_type_eqb (cfg_type config) AUDIO_STREAM_WRITER
          then Some cb_http_write else el_write default).
Proof.
  unfold http_stream_init_run, http_stream_init. cbv zeta. cbn [negb].
  destruct (cfg_type config); cbn; eexists; repeat split.
Qed.

(** X21: [http_stream_init] returns an element exactly when both
    allocations succeed, and attaches the data only then.  The
    [http_stream_t] it allocated is freed exactly once over the life of the
    element: by [http_stream_init] itself when [audio_element_init] fails,
    by [_http_destroy] otherwise; nothing is freed when the first
    allocation fails. *)
Theorem element_memory_freed_once (default : audio_element_cfg_t)
    (http_ok el_ok : bool) (config : http_stream_cfg_t) :
  let r := http_stream_init_run default http_ok el_ok config in
  let life := snd r ++ (if is_some (fst r) then snd _http_destroy else []) in
  (is_some (fst r) = http_ok && el_ok)
  /\ length (filter is_free (snd r))
     = (if http_ok && negb el_ok then 1 else 0)%nat
  /\ length (filter is_free life) = (if http_ok then 1 else 0)%nat
  /\ (forall h, In (MSetData h) (snd r) ->
        fst r <> None /\ h = http_stream_init config).
Proof.
  unfold http_stream_init_run, _http_destroy, http_stream_init. cbv zeta.
  destruct http_ok, el_ok; cbn [negb andb fst snd is_some app filter is_free length].
  all: do 3 (split; [reflexivity|]).
  all: intros h Hin; cbn in Hin;
       repeat (destruct Hin as [Hin | Hin]; try discriminate Hin);
       try contradiction.
  all: injection Hin as <-; split; [discriminate | reflexivity].
Qed.

(** ** [_http_process] *)

(** X22: [_http_process] passes through.  A zero or negative result of
    [audio_element_input] is returned as it is and the output is not
    called; a positive result [r_size] is handed on, with the filled
    buffer, to [audio_element_output], asked for [r_size] bytes (not for
    [in_len]), and the value returned is the output's. *)
Theorem process_passes_through (P : pipeline) (in_buffer : option string)
    (in_len : Z) :
  let r_size := fst (pl_input P in_buffer in_len) in
  let filled := snd (pl_input P in_buffer in_len) in
  let w_size := fst (_http_process P in_buffer in_len) in
  let calls := snd (_http_process P in_buffer in_len) in
  (r_size <= 0 -> w_size = r_size /\ calls = [PInput in_buffer in_len])
  /\ (0 < r_size ->
      w_size = pl_output P filled r_size
      /\ calls = [PInput in_buffer in_len; POutput filled r_size]).
Proof.
  unfold _http_process. destruct (pl_input P in_buffer in_len) as [r f].
  cbn [fst snd]. destruct (r >? 0) eqn:Hr.
  - apply Z.gtb_lt in Hr. split; intros H; [lia|]. split; reflexivity.
  - assert (r <= 0) by (destruct (Z.gtb_spec r 0); [discriminate | lia]).
    split; intros H'; [|lia]. split; reflexivity.
Qed.

(** ** What a reader's open publishes *)

(** X23: an open that has fetched the headers publishes [total_bytes] as
    fetched and [byte_pos] as it was; its [codec_fmt] is MP3 or the one the
    element had before, and it is MP3 whenever the fetch delivered a header
    named Content-Disposition or Content-Type. *)
Theorem open_publishes_mp3_or_keeps (E : env) (w : world)
    (c : esp_http_client_handle_t) :
  In (CFetchHeaders c) (made w (snd (_http_open E w))) ->
  let info' := w_info (snd (_http_open E w)) in
  (codec_fmt info' = AUDIO_CODEC_MP3 \/ codec_fmt info' = codec_fmt (w_info w))
  /\ (existsb is_sniffed (env_fetch_events E) = true ->
      codec_fmt info' = AUDIO_CODEC_MP3)
  /\ total_bytes info' = env_fetch_headers E
  /\ byte_pos info' = byte_pos (w_info w).
Proof.
  intros Hin info'.
  destruct (open_publishes_sniffed_codec E w c Hin) as (evts & Hc).
  destruct (open_after_fetch E w c Hin) as (_ & _ & _ & _ & Ht & Hb & _).
  fold info' in Hc, Ht, Hb. rewrite deliver_codec, existsb_app in Hc.
  split; [|split; [|split; assumption]].
  - rewrite Hc.
    destruct (existsb is_sniffed evts || existsb is_sniffed (env_fetch_events E));
      [left | right]; reflexivity.
  - intros Hs. rewrite Hc, Hs, orb_true_r. reflexivity.
Qed.

Lemma open_publishes_mp3_or_keeps_witness :
  let w := Sample.fresh AUDIO_STREAM_READER None in
  let E := Sample.server 200 in
  In (CFetchHeaders (Some 1%nat)) (made w (snd (_http_open E w)))
  /\ codec_fmt (w_info (snd (_http_open E w))) = AUDIO_CODEC_MP3.
Proof.
  intros w E.
  assert (Hin : In (CFetchHeaders (Some 1%nat)) (made w (snd (_http_open E w))))
    by (vm_compute; tauto).
  split; [exact Hin|].
  exact (proj1 (proj2 (open_publishes_mp3_or_keeps E w (Some 1%nat) Hin)) eq_refl).
Defined.

Lemma open_without_memory_witness :
  let E := mk_env None (None, 0) (fun _ => ESP_OK) [] (fun _ len => len) []
             0 [] 200 (fun len => len) in
  let w := Sample.fresh AUDIO_STREAM_READER None in
  (w_uri w = Some Sample.url /\ is_open (w_http w) = false /\ env_init E = None)
  /\ fst (_http_open E w) = ESP_ERR_NO_MEM.
Proof.
  intros E w. split; [repeat split|].
  exact (proj1 (open_without_memory E w Sample.url eq_refl eq_refl eq_refl)).
Defined.
